(** * The pphuman pipeline (deploy/pphuman/pipeline.py)

    A shallow embedding of the orchestration code of [pipeline.py]: the
    [Result] store, the input parsing of [Pipeline], the constructor of
    [PipePredictor] and its two processing loops, [predict_image] and
    [predict_video].

    The inference engines, the image codecs, the video capture and the
    renderers are collaborators: they are kept as the fields of one
    interface ([Collaborators]) and every call to one of them is recorded in
    a trace.  Python exceptions are values of [exn]; a method of an object is
    a function in a state-and-error monad over the object and its
    environment, so that the attributes of an object are still observable
    after an exception. *)

From Stdlib Require Import ZArith List Ascii String Lia Bool.
From stdpp Require Import base option list strings gmap.

Import ListNotations.
Local Open Scope string_scope.
Local Open Scope list_scope.
Local Open Scope Z_scope.

(** ** Python values and exceptions *)

(** What a stage leaves in its result dictionary: arrays (opaque to the
    pipeline, [A] is the array type), lists, integers and strings. *)
#[warnings="-register-all"]
Inductive pyval (A : Type) : Type :=
| PyNone
| PyInt (n : Z)
| PyStr (s : string)
| PyArr (a : A)
| PyList (items : list (pyval A)).

Arguments PyNone {A}.
Arguments PyInt {A} n.
Arguments PyStr {A} s.
Arguments PyArr {A} a.
Arguments PyList {A} items.

(** The exceptions the pipeline code can raise by itself. [ExternalError]
    stands for whatever a collaborator raises. *)
Inductive exn : Type :=
| ValueError (msg : string)
| NameError (name : string)
| KeyError (key : string)
| AttributeError (attr : string)
| TypeError (msg : string)
| ZeroDivisionError
| ExternalError (who : string).

(** ** class Result *)

Module Result.
Section WithArray.
Context {A : Type}.

(** [res_dict]: stage name to the dictionary of that stage. *)
Record t : Type := mk { res_dict : gmap string (gmap string (pyval A)) }.

Definition stage_keys : list string :=
  ["det"; "mot"; "attr"; "kpt"; "action"].

(** [__init__]: five keys, each bound to a fresh empty dictionary. *)
Definition init : t :=
  mk (<["det" := ∅]> (<["mot" := ∅]> (<["attr" := ∅]>
       (<["kpt" := ∅]> (<["action" := ∅]> ∅))))).

(** Python's [dict.update]: the keys of [res] are overwritten, the other
    keys of [d] stay. *)
Definition dict_update (d res : gmap string (pyval A))
  : gmap string (pyval A) := res ∪ d.

(** [update(res, name)]: [self.res_dict[name].update(res)]; the subscript
    raises [KeyError] on a name that is not a key, and nothing is written
    then. *)
Definition update (res : gmap string (pyval A)) (name : string) (r : t)
  : exn + t :=
  match res_dict r !! name with
  | Some d => inr (mk (<[name := dict_update d res]> (res_dict r)))
  | None => inl (KeyError name)
  end.

(** [get(name)]: the stored dictionary, or [None]. *)
Definition get (name : string) (r : t) : option (gmap string (pyval A)) :=
  if decide (is_Some (res_dict r !! name))
  then res_dict r !! name
  else None.

(** A sequence of [update] calls; one that raises leaves the store as it
    was. *)
Definition apply_update (r : t) (op : gmap string (pyval A) * string) : t :=
  match update (fst op) (snd op) r with
  | inr r' => r'
  | inl _ => r
  end.

Definition after (ops : list (gmap string (pyval A) * string)) : t :=
  fold_left apply_update ops init.

Definition raises {X : Type} (x : exn + X) : Prop :=
  match x with inl _ => True | inr _ => False end.

End WithArray.
Arguments t A : clear implicits.
End Result.

(** ** The timer

    [PipeTimer] and [Times] come from [pipe_utils], which is not part of the
    sources at hand. *)

(** Modelled from the spec: the class [Times] of [pipe_utils] is missing;
    a [StageTimer] accumulator has a cumulative duration ([time]) and a call
    count ([laps], one per closed interval); [st] and [et] are the clock
    readings of the last [start] and [end]. The clock counts in integer
    units. *)
Record Times : Type := mkTimes { time : Z; st : Z; et : Z; laps : nat }.

Definition Times_init : Times := mkTimes 0 0 0 0.

Definition Times_start (now : Z) (t : Times) : Times :=
  mkTimes (time t) now (et t) (laps t).

Definition Times_end (now : Z) (t : Times) : Times :=
  mkTimes (time t + (now - st t)) (st t) now (S (laps t)).

(** The five stages that [module_time] has an accumulator for. *)
Inductive stage : Type := Det | Mot | Attr | Kpt | Action.

Definition stage_name (s : stage) : string :=
  match s with
  | Det => "det" | Mot => "mot" | Attr => "attr"
  | Kpt => "kpt" | Action => "action"
  end.

(** Modelled from the spec: the class [PipeTimer] of [pipe_utils] is
    missing; per-stage accumulators ([module_time]), the accumulator of the
    whole tick ([total_time]) and the global counter [img_num]. *)
Record PipeTimer : Type := mkPipeTimer {
  total_time : Times;
  time_det : Times;
  time_mot : Times;
  time_attr : Times;
  time_kpt : Times;
  time_action : Times;
  img_num : Z
}.

Definition PipeTimer_init : PipeTimer :=
  mkPipeTimer Times_init Times_init Times_init Times_init Times_init
              Times_init 0.

Definition module_time (t : PipeTimer) (s : stage) : Times :=
  match s with
  | Det => time_det t | Mot => time_mot t | Attr => time_attr t
  | Kpt => time_kpt t | Action => time_action t
  end.

Definition set_module_time (s : stage) (x : Times) (t : PipeTimer)
  : PipeTimer :=
  match s with
  | Det => mkPipeTimer (total_time t) x (time_mot t) (time_attr t)
             (time_kpt t) (time_action t) (img_num t)
  | Mot => mkPipeTimer (total_time t) (time_det t) x (time_attr t)
             (time_kpt t) (time_action t) (img_num t)
  | Attr => mkPipeTimer (total_time t) (time_det t) (time_mot t) x
             (time_kpt t) (time_action t) (img_num t)
  | Kpt => mkPipeTimer (total_time t) (time_det t) (time_mot t) (time_attr t)
             x (time_action t) (img_num t)
  | Action => mkPipeTimer (total_time t) (time_det t) (time_mot t)
             (time_attr t) (time_kpt t) x (img_num t)
  end.

Definition set_total_time (x : Times) (t : PipeTimer) : PipeTimer :=
  mkPipeTimer x (time_det t) (time_mot t) (time_attr t) (time_kpt t)
              (time_action t) (img_num t).

Definition set_img_num (n : Z) (t : PipeTimer) : PipeTimer :=
  mkPipeTimer (total_time t) (time_det t) (time_mot t) (time_attr t)
              (time_kpt t) (time_action t) n.

(** ** Collaborators *)

(** A [cv2.VideoCapture]: the outcome of its k-th [read()] (a frame, or
    [None] when [ret] is false) and the number of reads done so far. *)
Record capture (A : Type) : Type := mkCapture {
  cap_frames : nat -> option A;
  cap_pos : nat
}.
Arguments mkCapture {A} _ _.
Arguments cap_frames {A} _ _.
Arguments cap_pos {A} _.

Definition capture_read {A : Type} (c : capture A) : option A * capture A :=
  (cap_frames c (cap_pos c), mkCapture (cap_frames c) (S (cap_pos c))).

(** Every call that leaves the pipeline code is recorded. *)
Inductive event (A : Type) : Type :=
| EvDecode (f : string)
| EvDet (batch : list A)
| EvCropDet (batch : list A)
| EvAttr (crops : list A)
| EvEnsureDir (dir : string)
| EvOpenWriter (out_path : string)
| EvRead (ok : bool)
| EvMot (frame : A)
| EvCropMot (frame : A)
| EvKpt (crops : list A)
| EvKptUpdate
| EvKptState
| EvKptCollate
| EvAction (window : pyval A)
| EvVisualizeBox (f : string)
| EvVisualizeAttr
| EvSave (f : string)
| EvPlotTracking (frame_id : Z)
| EvWriterWrite
| EvWriterRelease
| EvTimerInfo.

Arguments EvDecode {A} f.
Arguments EvDet {A} batch.
Arguments EvCropDet {A} batch.
Arguments EvAttr {A} crops.
Arguments EvEnsureDir {A} dir.
Arguments EvOpenWriter {A} out_path.
Arguments EvRead {A} ok.
Arguments EvMot {A} frame.
Arguments EvCropMot {A} frame.
Arguments EvKpt {A} crops.
Arguments EvKptUpdate {A}.
Arguments EvKptState {A}.
Arguments EvKptCollate {A}.
Arguments EvAction {A} window.
Arguments EvVisualizeBox {A} f.
Arguments EvVisualizeAttr {A}.
Arguments EvSave {A} f.
Arguments EvPlotTracking {A} frame_id.
Arguments EvWriterWrite {A}.
Arguments EvWriterRelease {A}.
Arguments EvTimerInfo {A}.

(** The interface of everything [pipeline.py] imports and calls: the opaque
    predict functions, the helpers of [pipe_utils], [cv2] and the clock.
    They are deterministic functions of what the pipeline hands them; the
    tracker, which keeps state across calls, is a function of the frames it
    has seen. [elapsed] is the time a call takes. *)
Class Collaborators : Type := {
  ndarray : Type;
  get_test_images : option string -> option string -> option (list string);
  decode_image : string -> ndarray;
  crop_image_with_det :
    list ndarray -> gmap string (pyval ndarray) -> list (list ndarray);
  crop_image_with_mot :
    ndarray -> gmap string (pyval ndarray) -> list ndarray;
  parse_mot_res : pyval ndarray -> gmap string (pyval ndarray);
  VideoCapture_path : string -> capture ndarray;
  VideoCapture_id : Z -> capture ndarray;
  det_predict_image : list ndarray -> gmap string (pyval ndarray);
  mot_predict_image : list ndarray -> list ndarray -> pyval ndarray;
  attr_predict_image : list ndarray -> gmap string (pyval ndarray);
  kpt_predict_image : list ndarray -> gmap string (pyval ndarray);
  kpt_window_full : list (gmap string (pyval ndarray)) -> bool;
  kpt_collate :
    list (gmap string (pyval ndarray)) ->
    pyval ndarray * list (gmap string (pyval ndarray));
  action_predict_kpt : pyval ndarray -> gmap string (pyval ndarray);
  array_rows : ndarray -> list (pyval ndarray);
  elapsed : event ndarray -> Z
}.

(** ** Configuration and the predictor object *)

(** One section of the configuration dictionary ([DET], [ATTR], [ACTION]). *)
Record ModelCfg : Type := mkModelCfg { model_dir : string; batch_size : Z }.

(** The [MOT] section carries the tracker configuration too. *)
Record MotCfg : Type := mkMotCfg {
  mot_model_dir : string;
  tracker_config : string;
  mot_batch_size : Z
}.

(** The merged configuration [cfg]: a section is [None] when its key is not
    in the dictionary. *)
Record Cfg : Type := mkCfg {
  DET : option ModelCfg;
  MOT : option MotCfg;
  ATTR : option ModelCfg;
  ACTION : option ModelCfg;
  visual : bool
}.

(** What the pipeline reads of a constructed [Detector]. *)
Record Detector : Type := mkDetector { det_batch_size : Z }.

(** A stage result: a Python dictionary with string keys. *)
Abbreviation pydict := (gmap string (pyval ndarray)).

Section WithCollaborators.
Context {C : Collaborators}.


(** The attributes of a [PipePredictor]. The predictors are attributes
    that [__init__] sets on some paths only: [None] is an attribute that
    was never set. The tracker is represented by the frames it has seen,
    the keypoint collector by the results it has in its buffer. *)
Record PipePredictor : Type := mkPipePredictor {
  with_attr : bool;
  with_action : bool;
  is_video : bool;
  multi_camera : bool;
  cfg : Cfg;
  output_dir : string;
  warmup_frame : Z;
  pipeline_res : Result.t ndarray;
  pipe_timer : PipeTimer;
  det_predictor : option Detector;
  mot_predictor : option (list ndarray);
  attr_predictor : option unit;
  kpt_predictor : option unit;
  kpt_collector : option (list pydict);
  action_predictor : option unit
}.

Definition set_pipeline_res (r : Result.t ndarray) (p : PipePredictor)
  : PipePredictor :=
  mkPipePredictor (with_attr p) (with_action p) (is_video p)
    (multi_camera p) (cfg p) (output_dir p) (warmup_frame p) r
    (pipe_timer p) (det_predictor p) (mot_predictor p) (attr_predictor p)
    (kpt_predictor p) (kpt_collector p) (action_predictor p).

Definition set_pipe_timer (t : PipeTimer) (p : PipePredictor)
  : PipePredictor :=
  mkPipePredictor (with_attr p) (with_action p) (is_video p)
    (multi_camera p) (cfg p) (output_dir p) (warmup_frame p)
    (pipeline_res p) t (det_predictor p) (mot_predictor p)
    (attr_predictor p) (kpt_predictor p) (kpt_collector p)
    (action_predictor p).

Definition set_mot_predictor (m : option (list ndarray)) (p : PipePredictor)
  : PipePredictor :=
  mkPipePredictor (with_attr p) (with_action p) (is_video p)
    (multi_camera p) (cfg p) (output_dir p) (warmup_frame p)
    (pipeline_res p) (pipe_timer p) (det_predictor p) m
    (attr_predictor p) (kpt_predictor p) (kpt_collector p)
    (action_predictor p).

Definition set_kpt_collector (k : option (list pydict)) (p : PipePredictor)
  : PipePredictor :=
  mkPipePredictor (with_attr p) (with_action p) (is_video p)
    (multi_camera p) (cfg p) (output_dir p) (warmup_frame p)
    (pipeline_res p) (pipe_timer p) (det_predictor p) (mot_predictor p)
    (attr_predictor p) (kpt_predictor p) k (action_predictor p).

(** ** Name resolution *)

(** The names bound in the module: its imports, its classes and [main].
    A global that is not in this list (and is no builtin) raises
    [NameError] when it is evaluated. *)
Definition module_globals : list string :=
  ["os"; "yaml"; "glob"; "cv2"; "np"; "math"; "paddle"; "sys"; "Sequence";
   "parent_path"; "Detector"; "DetectorPicoDet"; "SDE_Detector";
   "AttrDetector"; "argsparser"; "print_arguments"; "merge_cfg";
   "PipeTimer"; "get_test_images"; "crop_image_with_det";
   "crop_image_with_mot"; "parse_mot_res"; "decode_image";
   "visualize_box_mask"; "visualize_attr"; "plot_tracking";
   "Pipeline"; "Result"; "PipePredictor"; "main"].

Definition load_global (name : string) : exn + unit :=
  if decide (name ∈ module_globals) then inr tt else inl (NameError name).

(** The methods of class [PipePredictor]; [self.m] for another [m] that is
    no instance attribute either raises [AttributeError]. *)
Definition PipePredictor_methods : list string :=
  ["__init__"; "get_result"; "run"; "predict_image"; "predict_video";
   "visualize_video"; "visualize_image"].

Definition load_method (name : string) : exn + unit :=
  if decide (name ∈ PipePredictor_methods)
  then inr tt else inl (AttributeError name).

(** ** The monad of a method call

      The state is the object ([self]) and the environment: the clock and
      the trace of the calls made to collaborators. An exception keeps the
      state reached when it was raised. *)
Record World : Type := mkWorld {
  self : PipePredictor;
  clock : Z;
  trace : list (event ndarray)
}.

Definition M (X : Type) : Type := World -> (exn + X) * World.

Definition ret {X : Type} (x : X) : M X := fun w => (inr x, w).

Definition bind {X Y : Type} (m : M X) (k : X -> M Y) : M Y :=
  fun w =>
    match m w with
    | (inr x, w') => k x w'
    | (inl e, w') => (inl e, w')
    end.

Definition raise {X : Type} (e : exn) : M X := fun w => (inl e, w).

Definition lift {X : Type} (r : exn + X) : M X := fun w => (r, w).

Definition read_self {X : Type} (f : PipePredictor -> X) : M X :=
  fun w => (inr (f (self w)), w).

Definition modify_self (f : PipePredictor -> PipePredictor) : M unit :=
  fun w => (inr tt, mkWorld (f (self w)) (clock w) (trace w)).

(** A call to a collaborator: recorded, and the clock moves on. *)
Definition emit (e : event ndarray) : M unit :=
  fun w => (inr tt, mkWorld (self w) (clock w + elapsed e) (trace w ++ [e])).

(** [time.time()]. *)
Definition now : M Z := fun w => (inr (clock w), w).

(** [self.a] for an attribute that [__init__] may not have set. *)
Definition attribute {X : Type} (name : string)
    (f : PipePredictor -> option X) : M X :=
  fun w =>
    match f (self w) with
    | Some x => (inr x, w)
    | None => (inl (AttributeError name), w)
    end.

(** [for x in l: body x]. *)
Fixpoint for_each {X : Type} (l : list X) (body : X -> M unit) : M unit :=
  match l with
  | [] => ret tt
  | x :: l' => bind (body x) (fun _ => for_each l' body)
  end.

(** A loop that carries an accumulator. *)
Fixpoint for_fold {X Acc : Type} (l : list X) (acc : Acc)
    (body : Acc -> X -> M Acc) : M Acc :=
  match l with
  | [] => ret acc
  | x :: l' => bind (body acc x) (fun acc' => for_fold l' acc' body)
  end.

Definition when (b : bool) (m : M unit) : M unit :=
  if b then m else ret tt.

End WithCollaborators.

Declare Scope pipe_scope.
Delimit Scope pipe_scope with pipe.
Notation "x <~ m ; k" := (bind m (fun x => k))
  (at level 20, m at level 100, k at level 200, only parsing) : pipe_scope.
Notation "m ;> k" := (bind m (fun _ => k))
  (at level 100, k at level 200, right associativity, only parsing)
  : pipe_scope.
Local Open Scope pipe_scope.

(** ** Python lists *)

Definition py_len {X : Type} (l : list X) : Z := Z.of_nat (length l).

(** A slice bound, as Python normalises it: a negative bound counts from the
    end, and every bound is clipped to the list. *)
Definition slice_bound (len i : Z) : Z :=
  if i <? 0 then Z.max (i + len) 0 else Z.min i len.

(** [l[start:stop]]. *)
Definition py_slice {X : Type} (l : list X) (start stop : Z) : list X :=
  let s := slice_bound (py_len l) start in
  let e := slice_bound (py_len l) stop in
  firstn (Z.to_nat (e - s)) (skipn (Z.to_nat s) l).

(** [range(n)]. *)
Definition py_range (n : Z) : list Z := map Z.of_nat (seq 0 (Z.to_nat n)).

(** [math.ceil(float(n) / d)]: the division raises on [d = 0]; the quotient
    of two integers below 2^53 in magnitude is rounded correctly, and its
    ceiling is the integer ceiling for every list length that fits in
    memory. *)
Definition ceil_div (n d : Z) : exn + Z :=
  if d =? 0 then inl ZeroDivisionError else inr (- ((- n) / d)).

(** ** class PipePredictor *)

Section PipePredictorMethods.
Context {C : Collaborators}.

(** [cfg[key]] for a section of the configuration. *)
Definition cfg_section {X : Type} (key : string) (sec : option X)
  : exn + X :=
  match sec with
  | Some x => inr x
  | None => inl (KeyError key)
  end.

(** [cfg.get(key, False)], taken as a truth value. *)
Definition cfg_flag {X : Type} (sec : option X) : bool :=
  match sec with Some _ => true | None => false end.

Definition bind_exn {X Y : Type} (r : exn + X) (k : X -> exn + Y)
  : exn + Y :=
  match r with
  | inr x => k x
  | inl e => inl e
  end.

(** [PipePredictor.__init__]. The arguments that are only handed on to the
    model constructors (device, run mode, TensorRT shapes, threads) are
    left out. *)
Definition PipePredictor_init (cfg0 : Cfg) (is_video0 multi_camera0 : bool)
    (output_dir0 : string) : exn + PipePredictor :=
  let with_attr0 := cfg_flag (ATTR cfg0) in
  let with_action0 := cfg_flag (ACTION cfg0) in
  let p0 :=
    mkPipePredictor with_attr0 with_action0 is_video0 multi_camera0 cfg0
      output_dir0 1 Result.init PipeTimer_init None None None None None
      None in
  if negb is_video0 then
    bind_exn (cfg_section "DET" (DET cfg0)) (fun det_cfg =>
    let det := Some (mkDetector (batch_size det_cfg)) in
    if with_attr0 then
      bind_exn (cfg_section "ATTR" (ATTR cfg0)) (fun _ =>
      inr (mkPipePredictor with_attr0 with_action0 is_video0 multi_camera0
             cfg0 output_dir0 1 Result.init PipeTimer_init det None
             (Some tt) None None None))
    else
      inr (mkPipePredictor with_attr0 with_action0 is_video0 multi_camera0
             cfg0 output_dir0 1 Result.init PipeTimer_init det None
             None None None None))
  else
    bind_exn (cfg_section "MOT" (MOT cfg0)) (fun _ =>
    let mot := Some [] in
    bind_exn
      (if with_attr0 then
         bind_exn (cfg_section "ATTR" (ATTR cfg0)) (fun _ => inr (Some tt))
       else inr None) (fun attr =>
    if with_action0 then
      bind_exn (load_global "KeyPointDetector") (fun _ =>
      bind_exn (load_global "KeyPointCollector") (fun _ =>
      bind_exn (load_global "ActionDetector") (fun _ =>
      inr (mkPipePredictor with_attr0 with_action0 is_video0 multi_camera0
             cfg0 output_dir0 1 Result.init PipeTimer_init None mot attr
             (Some tt) (Some []) (Some tt)))))
    else
      inr (mkPipePredictor with_attr0 with_action0 is_video0 multi_camera0
             cfg0 output_dir0 1 Result.init PipeTimer_init None mot attr
             None None None))).

(** [get_result]. *)
Definition get_result (p : PipePredictor) : Result.t ndarray :=
  pipeline_res p.

(** *** Paths *)

(** Whether a path ends with the separator. *)
Fixpoint ends_with_sep (path : string) : bool :=
  match path with
  | EmptyString => false
  | String c EmptyString => Ascii.eqb c "/"%char
  | String _ rest => ends_with_sep rest
  end.

(** [os.path.join(a, b)] on POSIX paths: an absolute [b] replaces [a]; an
    empty [a], or one that ends with the separator, is followed by [b]
    directly; otherwise the separator comes between them. *)
Definition path_join (a b : string) : string :=
  if String.prefix "/" b then b
  else if (String.length a =? 0)%nat || ends_with_sep a then a +:+ b
  else a +:+ "/" +:+ b.

(** *** Timer and store accesses *)

Definition on_timer (f : PipeTimer -> PipeTimer) : M unit :=
  modify_self (fun p => set_pipe_timer (f (pipe_timer p)) p).

(** [self.pipe_timer.total_time.start()] and [.end()]. *)
Definition total_time_start : M unit :=
  t <~ now ;
  on_timer (fun tm => set_total_time (Times_start t (total_time tm)) tm).

Definition total_time_end : M unit :=
  t <~ now ;
  on_timer (fun tm => set_total_time (Times_end t (total_time tm)) tm).

(** [self.pipe_timer.module_time[s].start()] and [.end()]. *)
Definition module_time_start (s : stage) : M unit :=
  t <~ now ;
  on_timer (fun tm => set_module_time s (Times_start t (module_time tm s)) tm).

Definition module_time_end (s : stage) : M unit :=
  t <~ now ;
  on_timer (fun tm => set_module_time s (Times_end t (module_time tm s)) tm).

(** [self.pipe_timer.img_num += n]. *)
Definition img_num_add (n : Z) : M unit :=
  on_timer (fun tm => set_img_num (img_num tm + n) tm).

(** [self.pipeline_res.update(res, name)]. *)
Definition res_update (res : pydict) (name : string) : M unit :=
  fun w =>
    match Result.update res name (pipeline_res (self w)) with
    | inr r =>
        (inr tt, mkWorld (set_pipeline_res r (self w)) (clock w) (trace w))
    | inl e => (inl e, w)
    end.

(** [d[key]]. *)
Definition subscript (d : pydict) (key : string) : M (pyval ndarray) :=
  lift (match d !! key with
        | Some v => inr v
        | None => inl (KeyError key)
        end).

(** The items [list.extend] takes from its argument. *)
Definition py_iter (v : pyval ndarray) : exn + list (pyval ndarray) :=
  match v with
  | PyList items => inr items
  | PyArr a => inr (array_rows a)
  | PyStr s =>
      inr (map (fun c => PyStr (String c EmptyString))
               (list_ascii_of_string s))
  | PyNone => inl (TypeError "'NoneType' object is not iterable")
  | PyInt _ => inl (TypeError "'int' object is not iterable")
  end.

(** [i > self.warmup_frame]. *)
Definition past_warmup (i : Z) : M bool :=
  read_self (fun p => warmup_frame p <? i).

(** *** predict_image *)

(** [[decode_image(f, {})[0] for f in batch_file]]. *)
Definition decode_batch (batch_file : list string) : M (list ndarray) :=
  for_fold batch_file []
    (fun acc f => emit (EvDecode f) ;> ret (acc ++ [decode_image f])).

(** The loop over the crop groups: one attribute call per group, the
    outputs concatenated. *)
Definition attr_over_groups (crop_inputs : list (list ndarray))
  : M (list (pyval ndarray)) :=
  for_fold crop_inputs []
    (fun attr_res_list crop_input =>
       _ <~ attribute "attr_predictor" attr_predictor ;
       emit (EvAttr crop_input) ;>
       out <~ subscript (attr_predict_image crop_input) "output" ;
       items <~ lift (py_iter out) ;
       ret (attr_res_list ++ items)).

(** The body of the batch loop up to the visualisation: the slice of the
    input, detection, attributes, the counter. *)
Definition predict_image_stages (input : list string) (i : Z)
  : M (list string * list ndarray) :=
  det <~ attribute "det_predictor" det_predictor ;
  let start_index := i * det_batch_size det in
  let end_index := Z.min ((i + 1) * det_batch_size det) (py_len input) in
  let batch_file := py_slice input start_index end_index in
  batch_input <~ decode_batch batch_file ;
  timed <~ past_warmup i ;
  when timed (total_time_start ;> module_time_start Det) ;>
  _ <~ attribute "det_predictor" det_predictor ;
  emit (EvDet batch_input) ;>
  let det_res := det_predict_image batch_input in
  when timed (module_time_end Det) ;>
  res_update det_res "det" ;>
  wa <~ read_self with_attr ;
  (if wa then
     emit (EvCropDet batch_input) ;>
     let crop_inputs := crop_image_with_det batch_input det_res in
     when timed (module_time_start Attr) ;>
     attr_res_list <~ attr_over_groups crop_inputs ;
     when timed (module_time_end Attr) ;>
     res_update {["output" := PyList attr_res_list]} "attr"
   else ret tt) ;>
  img_num_add (py_len batch_input) ;>
  when timed total_time_end ;>
  ret (batch_file, batch_input).

(** [visualize_image]: the accesses to the store and the calls to the
    renderers; the indexing of the arrays is the renderers' business.
    [EvEnsureDir] is the test [os.path.exists(self.output_dir)] with the
    [os.makedirs] that follows when it fails. *)
Definition visualize_image (im_files : list string) (images : list ndarray)
  : M unit :=
  result <~ read_self pipeline_res ;
  let det_res := Result.get "det" result in
  let attr_res := Result.get "attr" result in
  for_each (combine im_files images)
    (fun '(im_file, im) =>
       match det_res with
       | Some d =>
           subscript d "boxes_num" ;>
           subscript d "boxes" ;>
           emit (EvVisualizeBox im_file)
       | None => ret tt
       end ;>
       match attr_res with
       | Some a =>
           subscript a "output" ;>
           match det_res with
           | Some _ => emit EvVisualizeAttr
           | None => raise (NameError "det_res_i")
           end
       | None => ret tt
       end ;>
       out_dir <~ read_self output_dir ;
       emit (EvEnsureDir out_dir) ;>
       emit (EvSave im_file)).

(** One round of the batch loop. *)
Definition predict_image_tick (input : list string) (i : Z) : M unit :=
  batch <~ predict_image_stages input i ;
  v <~ read_self (fun p => visual (cfg p)) ;
  when v (visualize_image (fst batch) (snd batch)).

(** [predict_image]. *)
Definition predict_image (input : list string) : M unit :=
  det <~ attribute "det_predictor" det_predictor ;
  batch_loop_cnt <~ lift (ceil_div (py_len input) (det_batch_size det)) ;
  for_each (py_range batch_loop_cnt) (predict_image_tick input).

(** *** predict_video *)

(** [visualize_video]: as for [visualize_image], the accesses to the store
    and the calls to the renderers. [result.get('mot')] is subscripted
    without a test. *)
Definition visualize_video (image : ndarray) (frame_id : Z) : M unit :=
  result <~ read_self pipeline_res ;
  match Result.get "mot" result with
  | None => raise (TypeError "'NoneType' object is not subscriptable")
  | Some mot_res =>
      subscript mot_res "boxes" ;>
      emit (EvPlotTracking frame_id) ;>
      match Result.get "attr" result with
      | Some attr_res =>
          subscript mot_res "boxes" ;>
          subscript attr_res "output" ;>
          emit EvVisualizeAttr
      | None => ret tt
      end
  end.

(** The keypoint and action branch of a frame. The last statement
    evaluates the global name [action]; no global of the module is a
    dictionary, so [update] could not take one either. *)
Definition action_stage (crop_input : list ndarray) : M unit :=
  _ <~ attribute "kpt_predictor" kpt_predictor ;
  emit (EvKpt crop_input) ;>
  let kpt_result := kpt_predict_image crop_input in
  res_update kpt_result "kpt" ;>
  buf <~ attribute "kpt_collector" kpt_collector ;
  emit EvKptUpdate ;>
  modify_self (set_kpt_collector (Some (buf ++ [kpt_result]))) ;>
  buf' <~ attribute "kpt_collector" kpt_collector ;
  emit EvKptState ;>
  if kpt_window_full buf' then
    emit EvKptCollate ;>
    modify_self (set_kpt_collector (Some (snd (kpt_collate buf')))) ;>
    let action_input := fst (kpt_collate buf') in
    _ <~ attribute "action_predictor" action_predictor ;
    emit (EvAction action_input) ;>
    lift (load_global "action") ;>
    raise (TypeError "dict.update")
  else ret tt.

(** The body of the frame loop after a successful read; [frame_id] is the
    value of the counter when the frame was read. *)
Definition predict_video_frame (frame : ndarray) (frame_id : Z) : M unit :=
  timed <~ past_warmup frame_id ;
  when timed (total_time_start ;> module_time_start Mot) ;>
  seen <~ attribute "mot_predictor" mot_predictor ;
  emit (EvMot frame) ;>
  modify_self (set_mot_predictor (Some (seen ++ [frame]))) ;>
  let res := mot_predict_image seen [frame] in
  when timed (module_time_end Mot) ;>
  let mot_res := parse_mot_res res in
  res_update mot_res "mot" ;>
  wa <~ read_self with_attr ;
  wc <~ read_self with_action ;
  when (wa || wc) (emit (EvCropMot frame)) ;>
  let crop_input := crop_image_with_mot frame mot_res in
  (if wa then
     when timed (module_time_start Attr) ;>
     _ <~ attribute "attr_predictor" attr_predictor ;
     emit (EvAttr crop_input) ;>
     let attr_res := attr_predict_image crop_input in
     when timed (module_time_end Attr) ;>
     res_update attr_res "attr"
   else ret tt) ;>
  (if wc then action_stage crop_input else ret tt) ;>
  when timed (img_num_add 1 ;> total_time_end) ;>
  mc <~ read_self multi_camera ;
  (if mc then
     lift (load_method "get_valid_instance") ;>
     raise (TypeError "get_valid_instance")
   else ret tt) ;>
  v <~ read_self (fun p => visual (cfg p)) ;
  when v (visualize_video frame (frame_id + 1) ;> emit EvWriterWrite).

(** [while (1)]: a read, the exit on a failed read, the frame. The loop
    has no bound of its own; [fuel] bounds the number of rounds, and the
    result says whether the loop was left ([true]) or the fuel ran out. *)
Fixpoint video_loop (fuel : nat) (cap : capture ndarray) (frame_id : Z)
  : M bool :=
  match fuel with
  | O => ret false
  | S fuel' =>
      let r := capture_read cap in
      emit (EvRead (bool_decide (is_Some (fst r)))) ;>
      match fst r with
      | None => ret true
      | Some frame =>
          predict_video_frame frame frame_id ;>
          video_loop fuel' (snd r) (frame_id + 1)
      end
  end.

(** [predict_video]: the output directory is made when it is missing, the
    writer is opened on [os.path.join(self.output_dir, 'output.mp4')], the
    loop runs, the writer is released. The calls into [os] and [cv2] are
    recorded like those of the other collaborators. *)
Definition predict_video (fuel : nat) (cap : capture ndarray) : M bool :=
  out_dir <~ read_self output_dir ;
  emit (EvEnsureDir out_dir) ;>
  emit (EvOpenWriter (path_join out_dir "output.mp4")) ;>
  left <~ video_loop fuel cap 0 ;
  if left then emit EvWriterRelease ;> ret true else ret false.

(** *** run *)

(** What [Pipeline._parse_input] produces. *)
Inductive Input : Type :=
| InImages (files : list string)
| InCapture (cap : capture ndarray)
| InCaptures (caps : list (capture ndarray)).

(** [run]: the input of a video predictor is a capture, that of an image
    predictor a list of files; another kind of object lacks the attribute
    the method asks it for first. *)
Definition run (fuel : nat) (input : Input) : M bool :=
  v <~ read_self is_video ;
  finished <~
    (if v then
       match input with
       | InCapture cap => predict_video fuel cap
       | _ => raise (AttributeError "get")
       end
     else
       match input with
       | InImages files => predict_image files ;> ret true
       | _ => raise (TypeError "len")
       end) ;
  if finished then emit EvTimerInfo ;> ret true else ret false.

End PipePredictorMethods.

(** ** class Pipeline *)

(** [video_file]: a path, or a list of paths. *)
Inductive VideoFile : Type :=
| VidPath (path : string)
| VidList (paths : list string).

(** [camera_id]: a device index, or a sequence of them. *)
Inductive CameraId : Type :=
| CamInt (id : Z)
| CamSeq (ids : list Z).

Section PipelineMethods.
Context {C : Collaborators}.

(** The predictor attribute: one object, or a list of them. *)
Inductive Predictors : Type :=
| One (p : PipePredictor)
| Many (ps : list PipePredictor).

Record Pipeline : Type := mkPipeline {
  pl_multi_camera : bool;
  pl_is_video : bool;
  pl_input : Input;
  pl_predictor : Predictors
}.

(** [camera_id != -1]: a sequence is never equal to an integer. *)
Definition camera_given (camera_id : CameraId) : bool :=
  match camera_id with
  | CamInt id => negb (id =? -1)
  | CamSeq _ => true
  end.

(** [_parse_input]: the input, and the flags [is_video] and
    [multi_camera] as the method leaves them; [flags] are their values on
    entry. *)
Definition _parse_input (image_file image_dir : option string)
    (video_file : option VideoFile) (camera_id : CameraId)
    (flags : bool * bool) : exn + (Input * (bool * bool)) :=
  if bool_decide (is_Some image_file) || bool_decide (is_Some image_dir)
  then
    match get_test_images image_dir image_file with
    | Some files => inr (InImages files, (false, false))
    | None => inl (ExternalError "get_test_images")
    end
  else
    match video_file with
    | Some (VidList paths) =>
        inr (InCaptures (map VideoCapture_path paths), (true, true))
    | Some (VidPath path) =>
        inr (InCapture (VideoCapture_path path), (true, snd flags))
    | None =>
        if camera_given camera_id then
          match camera_id with
          | CamSeq ids =>
              inr (InCaptures (map VideoCapture_id ids), (true, true))
          | CamInt id =>
              inr (InCapture (VideoCapture_id id), (true, snd flags))
          end
        else
          inl (ValueError
                 "Illegal Input, please set one of ['video_file', 'camera_id', 'image_file', 'image_dir']")
    end.

(** The list comprehension of [__init__]: one constructor call per
    stream. *)
Fixpoint build_predictors (cfg0 : Cfg) (output_dir0 : string)
    (caps : list (capture ndarray)) : exn + list PipePredictor :=
  match caps with
  | [] => inr []
  | _ :: caps' =>
      bind_exn (PipePredictor_init cfg0 true true output_dir0) (fun p =>
      bind_exn (build_predictors cfg0 output_dir0 caps') (fun ps =>
      inr (p :: ps)))
  end.

(** [Pipeline.__init__]. *)
Definition Pipeline_init (cfg0 : Cfg) (image_file image_dir : option string)
    (video_file : option VideoFile) (camera_id : CameraId)
    (output_dir0 : string) : exn + Pipeline :=
  bind_exn (_parse_input image_file image_dir video_file camera_id
              (false, false)) (fun parsed =>
  let input := fst parsed in
  let is_video0 := fst (snd parsed) in
  let multi_camera0 := snd (snd parsed) in
  if multi_camera0 then
    match input with
    | InCaptures caps =>
        bind_exn (build_predictors cfg0 output_dir0 caps) (fun ps =>
        inr (mkPipeline multi_camera0 is_video0 input (Many ps)))
    | _ => inl (TypeError "object is not iterable")
    end
  else
    bind_exn (PipePredictor_init cfg0 is_video0 false output_dir0) (fun p =>
    inr (mkPipeline multi_camera0 is_video0 input (One p)))).

(** What a call of [Pipeline.run] leaves behind: its result (an
    exception, or whether every loop was left), the predictors, the list
    [multi_res], the clock and the trace. *)
Record Outcome : Type := mkOutcome {
  out_result : exn + bool;
  out_predictors : list PipePredictor;
  out_multi_res : list (Result.t ndarray);
  out_clock : Z;
  out_trace : list (event ndarray)
}.

(** The loop over [zip(self.predictor, self.input)]. *)
Fixpoint run_streams (fuel : nat) (ps : list PipePredictor)
    (caps : list (capture ndarray)) (clock0 : Z)
    (trace0 : list (event ndarray)) (multi_res : list (Result.t ndarray))
  : Outcome :=
  match ps, caps with
  | p :: ps', cap :: caps' =>
      let rw := run fuel (InCapture cap) (mkWorld p clock0 trace0) in
      let w := snd rw in
      match fst rw with
      | inr true =>
          let o := run_streams fuel ps' caps' (clock w) (trace w)
                     (multi_res ++ [get_result (self w)]) in
          mkOutcome (out_result o) (self w :: out_predictors o)
            (out_multi_res o) (out_clock o) (out_trace o)
      | r => mkOutcome r (self w :: ps') multi_res (clock w) (trace w)
      end
  | _, _ => mkOutcome (inr true) ps multi_res clock0 trace0
  end.

(** [Pipeline.run]. *)
Definition Pipeline_run (fuel : nat) (pl : Pipeline) (clock0 : Z)
    (trace0 : list (event ndarray)) : Outcome :=
  if pl_multi_camera pl then
    match pl_predictor pl, pl_input pl with
    | Many ps, InCaptures caps =>
        let o := run_streams fuel ps caps clock0 trace0 [] in
        match out_result o with
        | inr true =>
            mkOutcome
              (bind_exn (load_global "mtmct_process")
                 (fun _ => inr true))
              (out_predictors o) (out_multi_res o) (out_clock o)
              (out_trace o)
        | _ => o
        end
    | _, _ => mkOutcome (inl (TypeError "zip")) [] [] clock0 trace0
    end
  else
    match pl_predictor pl with
    | One p =>
        let rw := run fuel (pl_input pl) (mkWorld p clock0 trace0) in
        mkOutcome (fst rw) [self (snd rw)] [] (clock (snd rw))
          (trace (snd rw))
    | Many _ => mkOutcome (inl (AttributeError "run")) [] [] clock0 trace0
    end.

End PipelineMethods.

(** ** Sample collaborators

    Two instances on which the definitions above can be run. Images, frames
    and crops are numbers. *)

(** A source that yields [n] frames and then fails. *)
Definition frames_then_end (n : nat) : capture Z :=
  mkCapture (fun k => if (k <? n)%nat then Some (Z.of_nat k) else None) 0.

(** Every path is a file or a directory with one image; a video has two
    frames; the detector finds nothing; the tracker reports the frame as its
    only box. *)
#[local] Instance sample : Collaborators := {|
  ndarray := Z;
  get_test_images := fun image_dir image_file =>
    match image_file, image_dir with
    | Some f, _ => Some [f]
    | None, Some d => Some [d +:+ "/0.jpg"]
    | None, None => None
    end;
  decode_image := fun f => Z.of_nat (String.length f);
  crop_image_with_det := fun _ _ => [];
  crop_image_with_mot := fun frame _ => [frame];
  parse_mot_res := fun raw => {["boxes" := raw]};
  VideoCapture_path := fun _ => frames_then_end 2;
  VideoCapture_id := fun _ => frames_then_end 2;
  det_predict_image := fun batch =>
    {["boxes" := PyList []; "boxes_num" := PyList (map (fun _ => PyInt 0) batch)]};
  mot_predict_image := fun _ frames => PyList (map PyInt frames);
  attr_predict_image := fun crops => {["output" := PyList (map PyInt crops)]};
  kpt_predict_image := fun crops => {["keypoint" := PyList (map PyInt crops)]};
  kpt_window_full := fun buf => (2 <=? length buf)%nat;
  kpt_collate := fun buf => (PyInt (py_len buf), []);
  action_predict_kpt := fun window => {["output" := window]};
  array_rows := fun _ => [];
  elapsed := fun _ => 1
|}.

(** As [sample], with a detector that returns masks for batches of even
    size only. *)
#[local] Instance sample_masks : Collaborators := {|
  ndarray := Z;
  get_test_images := @get_test_images sample;
  decode_image := @decode_image sample;
  crop_image_with_det := @crop_image_with_det sample;
  crop_image_with_mot := @crop_image_with_mot sample;
  parse_mot_res := @parse_mot_res sample;
  VideoCapture_path := @VideoCapture_path sample;
  VideoCapture_id := @VideoCapture_id sample;
  det_predict_image := fun batch =>
    if Nat.even (length batch)
    then {["boxes" := PyList []; "masks" := PyList (map PyInt batch)]}
    else {["boxes" := PyList []]};
  mot_predict_image := @mot_predict_image sample;
  attr_predict_image := @attr_predict_image sample;
  kpt_predict_image := @kpt_predict_image sample;
  kpt_window_full := @kpt_window_full sample;
  kpt_collate := @kpt_collate sample;
  action_predict_kpt := @action_predict_kpt sample;
  array_rows := @array_rows sample;
  elapsed := @elapsed sample
|}.

(** A configuration for images, with or without the attribute stage, and
    one for video. *)
Definition image_cfg (bs : Z) (attr vis : bool) : Cfg :=
  mkCfg (Some (mkModelCfg "det_model" bs)) None
        (if attr then Some (mkModelCfg "attr_model" 8) else None) None vis.

Definition video_cfg (attr action vis : bool) : Cfg :=
  mkCfg None (Some (mkMotCfg "mot_model" "tracker.yml" 1))
        (if attr then Some (mkModelCfg "attr_model" 8) else None)
        (if action then Some (mkModelCfg "action_model" 1) else None) vis.

(** A predictor out of its constructor, in a world with the clock at zero
    and nothing traced; when the constructor raises there is no object, and
    the world is [None]. *)
Definition fresh_world {C : Collaborators} (cfg0 : Cfg)
    (is_video0 multi_camera0 : bool) : option World :=
  match PipePredictor_init cfg0 is_video0 multi_camera0 "output" with
  | inr p => Some (mkWorld p 0 [])
  | inl _ => None
  end.

(** ** The readings of the specification *)

(** The batches as the specification words them: the slices
    [input[i*batch_size : min((i+1)*batch_size, len(input))]] for [i] from
    [0] to [ceil(len(input)/batch_size) - 1], the ceiling taken as
    [(len(input) + batch_size - 1) / batch_size]. *)
Definition spec_batches {X : Type} (input : list X) (batch_size : nat)
  : list (list X) :=
  map (fun i : nat =>
         firstn (Nat.min ((i + 1) * batch_size) (length input)
                 - i * batch_size)
                (skipn (i * batch_size) input))
      (seq 0 ((length input + batch_size - 1) / batch_size)%nat).

(** The number of source arguments that are given. *)
Definition sources_given (image_file image_dir : option string)
    (video_file : option VideoFile) (camera_id : CameraId) : nat :=
  ((if bool_decide (is_Some image_file) then 1 else 0)
   + (if bool_decide (is_Some image_dir) then 1 else 0)
   + (if bool_decide (is_Some video_file) then 1 else 0)
   + (if camera_given camera_id then 1 else 0))%nat.

(** The calls to the detector in a trace, in order. *)
Definition det_calls {A : Type} (tr : list (event A)) : list (list A) :=
  omap (fun e => match e with EvDet batch => Some batch | _ => None end) tr.

(** The frames handed to the tracker in a trace, in order. *)
Definition mot_calls {A : Type} (tr : list (event A)) : list A :=
  omap (fun e => match e with EvMot frame => Some frame | _ => None end) tr.

(** Whether an event is the dispatch of a stage. *)
Definition is_stage_call {A : Type} (e : event A) : bool :=
  match e with
  | EvDet _ | EvAttr _ | EvMot _ | EvKpt _ | EvAction _ => true
  | _ => false
  end.

(** The invalid-input error. *)
Definition is_ValueError {X : Type} (r : exn + X) : Prop :=
  exists msg, r = inl (ValueError msg).

(** The attributes that [__init__] computes from its arguments and that
    fix the stage graph. *)
Definition same_flags {C : Collaborators} (w w' : World) : Prop :=
  with_attr (self w') = with_attr (self w)
  /\ with_action (self w') = with_action (self w)
  /\ is_video (self w') = is_video (self w)
  /\ multi_camera (self w') = multi_camera (self w)
  /\ cfg (self w') = cfg (self w)
  /\ warmup_frame (self w') = warmup_frame (self w).

(** The ['action'] entry of the store is the same in both worlds. *)
Definition same_action_entry {C : Collaborators} (w w' : World) : Prop :=
  Result.get "action" (pipeline_res (self w'))
  = Result.get "action" (pipeline_res (self w)).

(** A video predictor with the action stage on, as [__init__] would leave
    it if the three names of its last branch were bound: the keypoint
    predictor, an empty collector and the action predictor set by hand. *)
Definition action_world : World (C:=sample) :=
  mkWorld
    (mkPipePredictor false true true false (video_cfg false true false)
       "output" 1 Result.init PipeTimer_init None (Some []) None
       (Some tt) (Some []) (Some tt))
    0 [].

(** The actions dispatched in a trace. *)
Definition action_calls {A : Type} (tr : list (event A)) : list (pyval A) :=
  omap (fun e => match e with EvAction window => Some window | _ => None end)
       tr.

(** The pipeline built for two video files on the sample collaborators. *)
Definition two_stream_pipeline : exn + Pipeline (C:=sample) :=
  Pipeline_init (video_cfg false false false) None None
    (Some (VidList ["a.mp4"; "b.mp4"])) (CamInt (-1)) "output".

(** The reads of captures in a trace. *)
Definition read_calls {A : Type} (tr : list (event A)) : list bool :=
  omap (fun e => match e with EvRead ok => Some ok | _ => None end) tr.

(** The store has its five stage keys and no other. *)
Definition store_ok {A : Type} (r : Result.t A) : Prop :=
  forall name, is_Some (Result.res_dict r !! name) <-> name ∈ Result.stage_keys.

(** The clock after a sequence of calls. *)
Definition clock_after {C : Collaborators} (evs : list (event ndarray))
    (c : Z) : Z :=
  fold_left (fun c e => c + elapsed e) evs c.

(** The attribute calls in a trace. *)
Definition attr_calls {A : Type} (tr : list (event A)) : list (list A) :=
  omap (fun e => match e with EvAttr crops => Some crops | _ => None end) tr.

(** [m], started in [w], returns a value and leaves a world that satisfy
    [Q]. *)
Definition wp {C : Collaborators} {X : Type} (m : M X)
    (Q : X -> World -> Prop) (w : World) : Prop :=
  exists x w', m w = (inr x, w') /\ Q x w'.

(** The store after a successful [update(res, name)]. *)
Definition store_put {A : Type} (name : string) (res : gmap string (pyval A))
    (r : Result.t A) : Result.t A :=
  Result.mk (<[name := res ∪ default ∅ (Result.res_dict r !! name)]>
               (Result.res_dict r)).

(** An image predictor on the sample collaborators, batches of [bs], as its
    constructor leaves it, in a world with the clock at zero. *)
Definition sample_image_world (bs : Z) (attr vis : bool) : World (C:=sample) :=
  mkWorld
    (mkPipePredictor attr false false false (image_cfg bs attr vis) "output"
       1 Result.init PipeTimer_init (Some (mkDetector bs)) None
       (if attr then Some tt else None) None None None)
    0 [].

(** A video predictor on the sample collaborators, as its constructor
    leaves it. *)
Definition sample_video_world (attr vis : bool) : World (C:=sample) :=
  mkWorld
    (mkPipePredictor attr false true false (video_cfg attr false vis)
       "output" 1 Result.init PipeTimer_init None (Some [])
       (if attr then Some tt else None) None None None)
    0 [].

(** The timer and the warm-up count are the same in both worlds. *)
Definition same_timer {C : Collaborators} (w w' : World) : Prop :=
  pipe_timer (self w') = pipe_timer (self w)
  /\ warmup_frame (self w') = warmup_frame (self w).

(** The frames that a source with the read outcomes [f] yields from its
    position [pos] on, up to its first failed read, within [m] reads. *)
Fixpoint frames_before_failure {A : Type} (f : nat -> option A)
    (pos m : nat) : list A :=
  match m with
  | O => []
  | S m' =>
      match f pos with
      | Some frame => frame :: frames_before_failure f (S pos) m'
      | None => []
      end
  end.

(** A video predictor whose frames run to their end: the tracker is there,
    the keypoint and action branch and the multi-camera branch are off,
    nothing is rendered, the attribute predictor is there if its stage is
    on, and the store has its keys. *)
Definition video_ready {C : Collaborators} (w : World) : Prop :=
  is_Some (mot_predictor (self w))
  /\ with_action (self w) = false
  /\ multi_camera (self w) = false
  /\ visual (cfg (self w)) = false
  /\ (with_attr (self w) = true -> is_Some (attr_predictor (self w)))
  /\ store_ok (pipeline_res (self w)).

(** The detector and the calls made to it so far are the same in both
    worlds. *)
Definition same_det {C : Collaborators} (w w' : World) : Prop :=
  det_calls (trace w') = det_calls (trace w)
  /\ det_predictor (self w') = det_predictor (self w).

(** The slice of the input that round [i] of the batch loop takes. *)
Definition batch_file_of {X : Type} (input : list X) (bs i : Z) : list X :=
  py_slice input (i * bs) (Z.min ((i + 1) * bs) (py_len input)).

(** The calls that only the video loop makes. *)
Definition is_video_event {A : Type} (e : event A) : bool :=
  match e with
  | EvOpenWriter _ | EvRead _ | EvMot _ | EvCropMot _ | EvKpt _
  | EvKptUpdate | EvKptState | EvKptCollate | EvAction _
  | EvPlotTracking _ | EvWriterWrite | EvWriterRelease => true
  | _ => false
  end.

(** The calls that only the batch loop makes. *)
Definition is_image_event {A : Type} (e : event A) : bool :=
  match e with
  | EvDecode _ | EvDet _ | EvCropDet _ | EvVisualizeBox _ | EvSave _ => true
  | _ => false
  end.

(** The events of a trace that satisfy [keep], in order. *)
Definition events_where {A : Type} (keep : event A -> bool)
    (tr : list (event A)) : list (event A) :=
  List.filter keep tr.

(** Both worlds have the same calls that satisfy [keep]. *)
Definition same_events {C : Collaborators} (keep : event ndarray -> bool)
    (w w' : World) : Prop :=
  events_where keep (trace w') = events_where keep (trace w).

(** The store has the same keys in both worlds. *)
Definition same_keys {C : Collaborators} (w w' : World) : Prop :=
  forall name,
    is_Some (Result.res_dict (pipeline_res (self w')) !! name)
    <-> is_Some (Result.res_dict (pipeline_res (self w)) !! name).

(** The accumulator of stage [s] is the same in both worlds. *)
Definition same_stage_time {C : Collaborators} (s : stage) (w w' : World)
  : Prop :=
  module_time (pipe_timer (self w')) s = module_time (pipe_timer (self w)) s.

(** Whether one of the image arguments is given. *)
Definition image_given (image_file image_dir : option string) : bool :=
  bool_decide (is_Some image_file) || bool_decide (is_Some image_dir).

(** The number of streams that the video arguments name, when they name
    several. *)
Definition streams_named (video_file : option VideoFile)
    (camera_id : CameraId) : option nat :=
  match video_file with
  | Some (VidList paths) => Some (length paths)
  | Some (VidPath _) => None
  | None =>
      match camera_id with
      | CamSeq ids => Some (length ids)
      | CamInt _ => None
      end
  end.

(** The counter of processed units and the detector are the same in both
    worlds. *)
Definition same_img_num {C : Collaborators} (w w' : World) : Prop :=
  img_num (pipe_timer (self w')) = img_num (pipe_timer (self w))
  /\ det_predictor (self w') = det_predictor (self w).

(** The files that [im.save] wrote, in order. *)
Definition saved_files {A : Type} (tr : list (event A)) : list string :=
  omap (fun e => match e with EvSave f => Some f | _ => None end) tr.

(** The number of frames handed to the video writer. *)
Definition writer_writes {A : Type} (tr : list (event A)) : nat :=
  length (List.filter
            (fun e => match e with EvWriterWrite => true | _ => false end)
            tr).

(** [m], started in [w], raises an exception, and the exception and the
    world it leaves satisfy [P]. *)
Definition fails {C : Collaborators} {X : Type} (m : M X)
    (P : exn -> World -> Prop) (w : World) : Prop :=
  exists e w', m w = (inl e, w') /\ P e w'.

(** The events of one round of the batch loop without attributes and
    without rendering: the decoding of the files, then the detector. *)
Definition batch_events {C : Collaborators} (batch_file : list string)
  : list (event ndarray) :=
  map EvDecode batch_file ++ [EvDet (map decode_image batch_file)].

(** What one round of the batch loop leaves when the attribute stage is
    off, before anything is rendered: the result of the detector merged
    into the ['det'] entry, the decoding and the detector call in the
    trace, and the counter moved by the size of the batch. *)
Definition det_tick_post {C : Collaborators} (batch_file : list string)
    (w w' : World) : Prop :=
  let batch_input := map decode_image batch_file in
  pipeline_res (self w')
  = store_put "det" (det_predict_image batch_input) (pipeline_res (self w))
  /\ trace w' = trace w ++ batch_events batch_file
  /\ clock w' = clock_after (batch_events batch_file) (clock w)
  /\ same_flags w w'
  /\ det_predictor (self w') = det_predictor (self w)
  /\ img_num (pipe_timer (self w'))
     = img_num (pipe_timer (self w)) + py_len batch_file.

(** The store after the rounds on [batches] with the attribute stage off:
    the result of the detector on each batch merged into ['det'], in the
    order of the batches. *)
Definition det_results_merged {C : Collaborators}
    (batches : list (list string)) (r : Result.t ndarray)
  : Result.t ndarray :=
  fold_left
    (fun r b => store_put "det" (det_predict_image (map decode_image b)) r)
    batches r.

(** Among [n] consecutive frames, the first numbered [frame_id], those
    whose number is above [warmup]. *)
Definition frames_past_warmup (warmup frame_id : Z) (n : nat) : Z :=
  Z.max 0 (Z.min (Z.of_nat n) (frame_id + Z.of_nat n - 1 - warmup)).

(** What the attribute loop takes from one crop group: the items of the
    ['output'] of the attribute result; [KeyError] without that key,
    [TypeError] when its value cannot be iterated. *)
Definition group_items {C : Collaborators} (crop_input : list ndarray)
  : exn + list (pyval ndarray) :=
  match attr_predict_image crop_input !! "output" with
  | Some out => py_iter out
  | None => inl (KeyError "output")
  end.

(** As [sample], with two crop groups per batch, each the whole batch,
    and an attribute predictor that has an ['output'] for groups of even
    size only. *)
#[local] Instance sample_crops : Collaborators := {|
  ndarray := Z;
  get_test_images := @get_test_images sample;
  decode_image := @decode_image sample;
  crop_image_with_det := fun batch _ => [batch; batch];
  crop_image_with_mot := @crop_image_with_mot sample;
  parse_mot_res := @parse_mot_res sample;
  VideoCapture_path := @VideoCapture_path sample;
  VideoCapture_id := @VideoCapture_id sample;
  det_predict_image := @det_predict_image sample;
  mot_predict_image := @mot_predict_image sample;
  attr_predict_image := fun crops =>
    if Nat.even (length crops)
    then {["output" := PyList (map PyInt crops)]}
    else {["score" := PyInt 0]};
  kpt_predict_image := @kpt_predict_image sample;
  kpt_window_full := @kpt_window_full sample;
  kpt_collate := @kpt_collate sample;
  action_predict_kpt := @action_predict_kpt sample;
  array_rows := @array_rows sample;
  elapsed := @elapsed sample
|}.

(** An image predictor with the attribute stage on these collaborators,
    as its constructor leaves it. *)
Definition sample_crops_world (bs : Z) : World (C:=sample_crops) :=
  mkWorld
    (mkPipePredictor true false false false (image_cfg bs true false)
       "output" 1 Result.init PipeTimer_init (Some (mkDetector bs)) None
       (Some tt) None None None)
    0 [].




(** * Properties *)

(** ** The result store *)

Section ResultFacts.
Context {A : Type}.
Implicit Types (r : Result.t A) (res : gmap string (pyval A)).
Implicit Types (name : string).

Lemma stage_keys_init name :
  is_Some (Result.res_dict (@Result.init A) !! name)
  <-> name ∈ Result.stage_keys.
Proof.
  unfold Result.init, Result.stage_keys; simpl.
  rewrite !lookup_insert_is_Some, lookup_empty, !elem_of_cons, elem_of_nil.
  split.
  - intros [<-|[_ [<-|[_ [<-|[_ [<-|[_ [<-|[_ [? H]]]]]]]]]]];
      [tauto..|discriminate H].
  - intros H.
    destruct (decide ("det" = name)); [by left|right; split; [done|]].
    destruct (decide ("mot" = name)); [by left|right; split; [done|]].
    destruct (decide ("attr" = name)); [by left|right; split; [done|]].
    destruct (decide ("kpt" = name)); [by left|right; split; [done|]].
    destruct (decide ("action" = name)); [by left|exfalso].
    destruct H as [->|[->|[->|[->|[->|[]]]]]]; done.
Qed.

Lemma update_keys res n r r' name :
  Result.update res n r = inr r' ->
  is_Some (Result.res_dict r' !! name) <-> is_Some (Result.res_dict r !! name).
Proof.
  unfold Result.update. destruct (Result.res_dict r !! n) eqn:E; [|done].
  intros [= <-]; simpl. rewrite lookup_insert_is_Some.
  split; [intros [<-|[_ ?]]; [by rewrite E|done]|].
  intros H. destruct (decide (n = name)); [by left|by right].
Qed.

Lemma apply_update_keys r op name :
  is_Some (Result.res_dict (Result.apply_update r op) !! name)
  <-> is_Some (Result.res_dict r !! name).
Proof.
  unfold Result.apply_update.
  destruct (Result.update op.1 op.2 r) eqn:E; [done|].
  by eapply update_keys.
Qed.

(** The store has the five stage keys, whatever was written to it. *)
Lemma after_keys ops name :
  is_Some (Result.res_dict (@Result.after A ops) !! name)
  <-> name ∈ Result.stage_keys.
Proof.
  unfold Result.after. rewrite <- stage_keys_init.
  generalize (@Result.init A). induction ops as [|op ops IH]; intros r.
  - done.
  - simpl. rewrite IH. apply apply_update_keys.
Qed.

Lemma get_lookup name r : Result.get name r = Result.res_dict r !! name.
Proof.
  unfold Result.get. destruct (decide _) as [?|H]; [done|].
  destruct (Result.res_dict r !! name) eqn:E; [|done].
  exfalso. apply H. by eexists.
Qed.

Lemma update_raises res name r :
  Result.raises (Result.update res name r)
  <-> ~ is_Some (Result.res_dict r !! name).
Proof.
  unfold Result.update.
  destruct (Result.res_dict r !! name) eqn:E; simpl.
  - split; [done|]. intros H; apply H; by eexists.
  - split; [|done]. intros _ [? ?]; done.
Qed.

End ResultFacts.

(** C10: [Result.get(name)] returns the stored dictionary for the five
    stage keys (the empty dictionary before any update of that stage) and
    [None] for every other name, and it cannot raise; [Result.update] raises
    exactly on a name that is not a stage key. [Result.after ops] is the
    store after any sequence [ops] of updates. *)
Theorem Result_get_total_update_partial (A : Type)
    (ops : list (gmap string (pyval A) * string)) (name : string) :
  let r := Result.after ops in
  Result.get name (@Result.init A)
    = (if decide (name ∈ Result.stage_keys) then Some ∅ else None)
  /\ Result.get name r = Result.res_dict r !! name
  /\ (is_Some (Result.get name r) <-> name ∈ Result.stage_keys)
  /\ (Result.get name r = None <-> name ∉ Result.stage_keys)
  /\ (forall res, Result.raises (Result.update res name r)
                  <-> name ∉ Result.stage_keys).
Proof.
  intros r. split; [|split; [|split; [|split]]].
  - rewrite get_lookup. destruct (decide _) as [Hin|Hout].
    + unfold Result.stage_keys in Hin.
      rewrite !elem_of_cons, elem_of_nil in Hin.
      destruct Hin as [->|[->|[->|[->|[->|[]]]]]]; reflexivity.
    + rewrite <- (stage_keys_init (A:=A)) in Hout.
      destruct (Result.res_dict Result.init !! name) eqn:E; [|done].
      exfalso; apply Hout; by eexists.
  - apply get_lookup.
  - rewrite get_lookup. apply after_keys.
  - rewrite get_lookup, <- (after_keys ops name), eq_None_not_Some. done.
  - intros res. rewrite update_raises. subst r. by rewrite after_keys.
Qed.

(** C6, as amended: [update] merges. Writing [res] for a stage leaves
    [res ∪ old] in the store, where [old] is what the stage had: every key
    of [res] has its new value, every other key keeps the value of the
    previous write; the entry is [res] alone when [res] has every key of
    [old]; the other stages are untouched. *)
Theorem Result_update_merges (A : Type)
    (ops : list (gmap string (pyval A) * string))
    (res : gmap string (pyval A)) (name : string) :
  name ∈ Result.stage_keys ->
  exists old r',
    Result.get name (Result.after ops) = Some old
    /\ Result.update res name (Result.after ops) = inr r'
    /\ Result.get name r' = Some (res ∪ old)
    /\ (forall k, (res ∪ old) !! k
                  = match res !! k with Some v => Some v | None => old !! k end)
    /\ (dom old ⊆ dom res -> Result.get name r' = Some res)
    /\ (forall other, other <> name ->
          Result.get other r' = Result.get other (Result.after ops)).
Proof.
  intros Hin. apply (after_keys ops) in Hin. destruct Hin as [old Hold].
  exists old, (Result.mk (<[name := res ∪ old]> (Result.res_dict (Result.after ops)))).
  repeat split.
  - by rewrite get_lookup.
  - unfold Result.update. by rewrite Hold.
  - rewrite get_lookup. simpl. by rewrite lookup_insert_eq.
  - intros k. rewrite lookup_union. destruct (res !! k), (old !! k); done.
  - intros Hdom. rewrite get_lookup; simpl. rewrite lookup_insert_eq.
    f_equal. apply map_eq. intros k. rewrite lookup_union.
    destruct (res !! k) eqn:Ek; [by destruct (old !! k)|].
    destruct (old !! k) eqn:Eo; [|done].
    exfalso. apply not_elem_of_dom in Ek. apply Ek, Hdom.
    apply elem_of_dom. by eexists.
  - intros other Hne. rewrite !get_lookup. simpl.
    by rewrite lookup_insert_ne.
Qed.

Lemma Result_update_merges_witness :
  "det" ∈ @Result.stage_keys
  /\ exists old r',
    Result.get "det" (Result.after [({["masks" := PyInt 7]}, "det")])
      = Some old
    /\ Result.update {["boxes" := PyInt 1]} "det"
         (Result.after [({["masks" := PyInt 7]}, "det")]) = inr r'
    /\ Result.get "det" r' = Some ({["boxes" := PyInt 1]} ∪ old)
    /\ (forall k, (({["boxes" := PyInt 1]} : gmap string (pyval Z)) ∪ old) !! k
                  = match ({["boxes" := PyInt 1]} : gmap string (pyval Z)) !! k
                    with Some v => Some v | None => old !! k end)
    /\ (dom old ⊆ dom ({["boxes" := PyInt 1]} : gmap string (pyval Z)) ->
        Result.get "det" r' = Some {["boxes" := PyInt 1]})
    /\ (forall other, other <> "det" ->
          Result.get other r'
          = Result.get other (Result.after [({["masks" := PyInt 7]}, "det")])).
Proof.
  split.
  - unfold Result.stage_keys. apply list_elem_of_here.
  - apply (Result_update_merges Z [({["masks" := PyInt 7]}, "det")]
             {["boxes" := PyInt 1]} "det").
    unfold Result.stage_keys. apply list_elem_of_here.
Defined.

(** C6, as stated, fails: with three images in batches of two and a
    detector that returns masks for the first batch only, the entry of
    ['det'] read after the second batch is not what the detector returned
    for the second batch: it still holds the masks of the first. *)
Lemma Result_entry_keeps_previous_tick :
  match fresh_world (C:=sample_masks) (image_cfg 2 false false) false false
  with
  | None => False
  | Some w0 =>
      let input := ["a"; "b"; "c"] in
      let w1 := snd (predict_image_tick input 0 w0) in
      let w2 := snd (predict_image_tick input 1 w1) in
      let written := det_predict_image [decode_image "c"] in
      fst (predict_image_tick input 1 w1) = inr tt
      /\ det_calls (trace w2) = [[1; 1]; [1]]
      /\ Result.get "det" (pipeline_res (self w2)) <> Some written
      /\ written !! "masks" = None
      /\ (Result.get "det" (pipeline_res (self w1)) ≫= (.!! "masks"))
         = Some (PyList [PyInt 1; PyInt 1])
      /\ (Result.get "det" (pipeline_res (self w2)) ≫= (.!! "masks"))
         = Some (PyList [PyInt 1; PyInt 1])
  end.
Proof.
  vm_compute fresh_world. cbv zeta.
  split; [by vm_compute|]. split; [by vm_compute|].
  split; [|split; [by vm_compute|split; by vm_compute]].
  intros H. apply (f_equal (fun o => o ≫= (.!! "masks"))) in H.
  vm_compute in H. discriminate H.
Qed.

(** ** Input parsing *)

Section ParseFacts.
Context {C : Collaborators}.

Lemma load_global_not_ValueError name : ~ is_ValueError (load_global name).
Proof.
  unfold load_global. destruct (decide _); intros [msg H]; discriminate H.
Qed.

Lemma PipePredictor_init_not_ValueError cfg0 v m o :
  ~ is_ValueError (PipePredictor_init cfg0 v m o).
Proof.
  unfold PipePredictor_init, cfg_flag, cfg_section, bind_exn, load_global.
  intros [msg H].
  destruct v, (DET cfg0), (MOT cfg0), (ATTR cfg0), (ACTION cfg0);
    simpl in H; try discriminate H;
    repeat match type of H with
           | context [decide ?P] => destruct (decide P)
           end; discriminate H.
Qed.

Lemma build_predictors_not_ValueError cfg0 o caps :
  ~ is_ValueError (build_predictors cfg0 o caps).
Proof.
  induction caps as [|c caps IH]; simpl.
  - intros [msg H]; discriminate H.
  - destruct (PipePredictor_init cfg0 true true o) eqn:E; simpl.
    + intros [msg [= ->]].
      apply (PipePredictor_init_not_ValueError cfg0 true true o).
      rewrite E. by eexists.
    + destruct (build_predictors cfg0 o caps) eqn:E2; simpl.
      * intros [msg [= ->]]. apply IH. by eexists.
      * intros [msg H]; discriminate H.
Qed.

Lemma parse_input_ValueError image_file image_dir video_file camera_id fl :
  is_ValueError (_parse_input image_file image_dir video_file camera_id fl)
  <-> sources_given image_file image_dir video_file camera_id = 0%nat.
Proof.
  unfold _parse_input, sources_given, is_ValueError.
  destruct image_file as [f|], image_dir as [d|]; simpl;
    try (split; [intros [msg H]|intros H; lia];
         destruct (get_test_images _ _); discriminate H).
  destruct video_file as [[p|ps]|]; simpl;
    try (split; [intros [msg H]; discriminate H|intros H; lia]).
  destruct (camera_given camera_id) eqn:E.
  - split; [intros [msg H]|intros H; lia].
    destruct camera_id; discriminate H.
  - split; [done|]. intros _. by eexists.
Qed.

End ParseFacts.

(** C4, as amended: input parsing raises the invalid-input error exactly
    when no source is given; a combination of several sources is accepted
    (the image arguments win over [video_file], which wins over
    [camera_id]). The same holds of the construction of the [Pipeline],
    which parses the input before it builds a predictor. *)
Theorem parse_input_invalid_iff_no_source (C : Collaborators)
    (cfg0 : Cfg) (image_file image_dir : option string)
    (video_file : option VideoFile) (camera_id : CameraId)
    (output_dir0 : string) :
  (is_ValueError
     (_parse_input image_file image_dir video_file camera_id (false, false))
   <-> sources_given image_file image_dir video_file camera_id = 0%nat)
  /\ (is_ValueError
        (Pipeline_init cfg0 image_file image_dir video_file camera_id
           output_dir0)
      <-> sources_given image_file image_dir video_file camera_id = 0%nat)
  /\ (sources_given image_file image_dir video_file camera_id = 0%nat
      <-> image_file = None /\ image_dir = None /\ video_file = None
          /\ camera_id = CamInt (-1)).
Proof.
  split; [apply parse_input_ValueError|]. split.
  - rewrite <- (parse_input_ValueError _ _ _ _ (false, false)).
    unfold Pipeline_init.
    destruct (_parse_input _ _ _ _ _) as [e|[input [v m]]] eqn:E; simpl.
    + split; intros [msg [= ->]]; by eexists.
    + split; [|intros [msg H]; discriminate H].
      intros Hv. exfalso. destruct m.
      * destruct input; try (destruct Hv as [msg H]; discriminate H).
        destruct (build_predictors cfg0 output_dir0 caps) eqn:E2; simpl in Hv.
        -- apply (build_predictors_not_ValueError cfg0 output_dir0 caps).
           rewrite E2. destruct Hv as [msg [= ->]]. by eexists.
        -- destruct Hv as [msg H]; discriminate H.
      * destruct (PipePredictor_init cfg0 v false output_dir0) eqn:E2;
          simpl in Hv.
        -- apply (PipePredictor_init_not_ValueError cfg0 v false output_dir0).
           rewrite E2. destruct Hv as [msg [= ->]]. by eexists.
        -- destruct Hv as [msg H]; discriminate H.
  - unfold sources_given.
    destruct image_file, image_dir, video_file; simpl;
      try (split; [intros H; lia|intros (?&?&?&?); discriminate]).
    destruct camera_id as [id|ids]; simpl.
    + destruct (id =? -1) eqn:E; simpl.
      * apply Z.eqb_eq in E. subst. done.
      * apply Z.eqb_neq in E.
        split; [intros H; lia|intros (_&_&_&[= ->]); done].
    + split; [intros H; lia|intros (_&_&_&H); discriminate H].
Qed.

(** C4, as stated, fails: an image file together with a video file is a
    combination of two kinds of source, and parsing accepts it (as image
    input), as does the construction of the pipeline. *)
Lemma parse_input_accepts_two_sources :
  let image_file := Some "a.jpg" in
  let video_file := Some (VidPath "b.mp4") in
  let r := _parse_input (C:=sample) image_file None video_file (CamInt (-1))
             (false, false) in
  sources_given image_file None video_file (CamInt (-1)) = 2%nat
  /\ r = inr (InImages ["a.jpg"], (false, false))
  /\ (exists pl, Pipeline_init (C:=sample) (image_cfg 2 false false)
                   image_file None video_file (CamInt (-1)) "output"
                 = inr pl)
  /\ ~ (is_ValueError r
        <-> (sources_given image_file None video_file (CamInt (-1)) = 0
             \/ 1 < sources_given image_file None video_file (CamInt (-1)))%nat).
Proof.
  cbv zeta. split; [reflexivity|]. split; [reflexivity|].
  split; [eexists; reflexivity|].
  intros [_ H]. destruct H as [msg H]; [|discriminate H].
  right. unfold sources_given, camera_given. simpl. apply Nat.lt_1_2.
Qed.

(** ** Relations that every step of a method keeps *)

Section Preservation.
Context {C : Collaborators}.
Variable R : World -> World -> Prop.
Hypothesis R_refl : forall w, R w w.
Hypothesis R_trans : forall w1 w2 w3, R w1 w2 -> R w2 w3 -> R w1 w3.

(** [m] relates the world it starts in to the world it ends in, whether
    it returns or raises. *)
Definition preserves {X : Type} (m : M X) : Prop :=
  forall w, R w (snd (m w)).

Lemma preserves_ret {X : Type} (x : X) : preserves (ret x).
Proof. intros w. apply R_refl. Qed.

Lemma preserves_raise {X : Type} (e : exn) : preserves (@raise C X e).
Proof. intros w. apply R_refl. Qed.

Lemma preserves_lift {X : Type} (r : exn + X) : preserves (lift r).
Proof. intros w. apply R_refl. Qed.

Lemma preserves_read_self {X : Type} (f : PipePredictor -> X) :
  preserves (read_self f).
Proof. intros w. apply R_refl. Qed.

Lemma preserves_now : preserves now.
Proof. intros w. apply R_refl. Qed.

Lemma preserves_attribute {X : Type} name (f : PipePredictor -> option X) :
  preserves (attribute name f).
Proof. intros w. unfold attribute. destruct (f (self w)); apply R_refl. Qed.

Lemma preserves_subscript d key : preserves (subscript d key).
Proof. apply preserves_lift. Qed.

Lemma preserves_bind {X Y : Type} (m : M X) (k : X -> M Y) :
  preserves m -> (forall x, preserves (k x)) -> preserves (bind m k).
Proof.
  intros Hm Hk w. unfold bind. specialize (Hm w).
  destruct (m w) as [[e|x] w1]; simpl in *; [done|].
  eapply R_trans; [exact Hm|apply Hk].
Qed.

Lemma preserves_when (b : bool) (m : M unit) :
  preserves m -> preserves (when b m).
Proof. intros Hm. destruct b; [exact Hm|apply preserves_ret]. Qed.

Lemma preserves_for_each {X : Type} (l : list X) (body : X -> M unit) :
  (forall x, preserves (body x)) -> preserves (for_each l body).
Proof.
  intros Hb. induction l as [|x l IH]; simpl.
  - apply preserves_ret.
  - apply preserves_bind; [apply Hb|intros _; exact IH].
Qed.

Lemma preserves_for_fold {X Acc : Type} (l : list X) (acc : Acc)
    (body : Acc -> X -> M Acc) :
  (forall a x, preserves (body a x)) -> preserves (for_fold l acc body).
Proof.
  intros Hb. revert acc. induction l as [|x l IH]; intros acc; simpl.
  - apply preserves_ret.
  - apply preserves_bind; [apply Hb|intros a; apply IH].
Qed.

End Preservation.

(** One step through the structure of a method, for a relation with the
    proofs [refl] and [trans]; [leaf] closes the steps that change the
    world. *)
Create HintDb preserve discriminated.

Ltac preserve_step refl trans leaf :=
  first
    [ solve [eauto 1 with preserve nocore]
    | apply (preserves_ret _ refl)
    | apply (preserves_raise _ refl)
    | apply (preserves_lift _ refl)
    | apply (preserves_read_self _ refl)
    | apply (preserves_now _ refl)
    | apply (preserves_attribute _ refl)
    | apply (preserves_subscript _ refl)
    | apply (preserves_bind _ trans); [|intros ?]
    | apply (preserves_when _ refl)
    | apply (preserves_for_each _ refl trans); intros ?
    | apply (preserves_for_fold _ refl trans); intros ? ?
    | match goal with
      | |- preserves _ (if ?b then _ else _) => destruct b
      | |- preserves _ (match ?x with _ => _ end) => destruct x
      end
    | progress unfold decode_batch, attr_over_groups, past_warmup,
        total_time_start, total_time_end, module_time_start,
        module_time_end, img_num_add
    | leaf ].

Ltac preserve_with refl trans leaf := repeat (preserve_step refl trans leaf).

(** ** The stage graph is fixed at construction *)

Section Flags.
Context {C : Collaborators}.

Lemma same_flags_refl w : same_flags w w.
Proof. by repeat split. Qed.

Lemma same_flags_trans w1 w2 w3 :
  same_flags w1 w2 -> same_flags w2 w3 -> same_flags w1 w3.
Proof.
  unfold same_flags. intros (?&?&?&?&?&?) (?&?&?&?&?&?).
  repeat split; congruence.
Qed.

Ltac flags_leaf :=
  let w := fresh "w" in
  intros w; unfold on_timer, modify_self, emit, res_update; simpl;
  try match goal with
      | |- context [Result.update ?a ?b ?c] => destruct (Result.update a b c)
      end;
  simpl; apply same_flags_refl || (by repeat split).

Ltac flags := preserve_with same_flags_refl same_flags_trans flags_leaf.

Lemma predict_image_tick_flags input i :
  preserves same_flags (predict_image_tick input i).
Proof.
  unfold predict_image_tick, predict_image_stages, visualize_image. flags.
Qed.

#[local] Hint Resolve predict_image_tick_flags : preserve.

Lemma predict_image_flags input : preserves same_flags (predict_image input).
Proof.
  unfold predict_image. flags.
Qed.

Lemma predict_video_frame_flags frame frame_id :
  preserves same_flags (predict_video_frame frame frame_id).
Proof.
  unfold predict_video_frame, action_stage, visualize_video. flags.
Qed.

#[local] Hint Resolve predict_video_frame_flags : preserve.

Lemma video_loop_flags fuel cap frame_id :
  preserves same_flags (video_loop fuel cap frame_id).
Proof.
  revert cap frame_id. induction fuel as [|fuel IH]; intros cap frame_id.
  - simpl. flags.
  - simpl. flags.
Qed.

#[local] Hint Resolve video_loop_flags : preserve.

Lemma predict_video_flags fuel cap :
  preserves same_flags (predict_video fuel cap).
Proof.
  unfold predict_video. flags.
Qed.

#[local] Hint Resolve predict_video_flags predict_image_flags : preserve.

Lemma run_flags fuel input : preserves same_flags (run fuel input).
Proof.
  unfold run. flags.
Qed.

End Flags.

(** C8: the attributes [with_attr] and [with_action] are computed from the
    configuration by the constructor, and [run], [predict_image] and
    [predict_video] (and every round of their loops) leave them as they
    are, whether they return or raise. *)
Theorem stage_flags_fixed_at_construction (C : Collaborators) :
  (forall cfg0 is_video0 multi_camera0 output_dir0,
      match PipePredictor_init cfg0 is_video0 multi_camera0 output_dir0 with
      | inr p => with_attr p = cfg_flag (ATTR cfg0)
                 /\ with_action p = cfg_flag (ACTION cfg0)
      | inl _ => True
      end)
  /\ (forall fuel input w,
        with_attr (self (snd (run fuel input w))) = with_attr (self w)
        /\ with_action (self (snd (run fuel input w))) = with_action (self w))
  /\ (forall input w,
        with_attr (self (snd (predict_image input w))) = with_attr (self w)
        /\ with_action (self (snd (predict_image input w)))
           = with_action (self w))
  /\ (forall fuel cap w,
        with_attr (self (snd (predict_video fuel cap w))) = with_attr (self w)
        /\ with_action (self (snd (predict_video fuel cap w)))
           = with_action (self w))
  /\ (forall input i w,
        with_attr (self (snd (predict_image_tick input i w)))
          = with_attr (self w)
        /\ with_action (self (snd (predict_image_tick input i w)))
           = with_action (self w))
  /\ (forall frame frame_id w,
        with_attr (self (snd (predict_video_frame frame frame_id w)))
          = with_attr (self w)
        /\ with_action (self (snd (predict_video_frame frame frame_id w)))
           = with_action (self w)).
Proof.
  split; [|split; [|split; [|split; [|split]]]].
  - intros cfg0 v m o. unfold PipePredictor_init, bind_exn, cfg_section.
    destruct v, (DET cfg0), (MOT cfg0), (ATTR cfg0), (ACTION cfg0); simpl;
      try done;
      repeat match goal with
             | |- context [load_global ?n] => destruct (load_global n)
             end; simpl; done.
  - intros fuel input w. destruct (run_flags fuel input w) as (?&?&_). done.
  - intros input w. destruct (predict_image_flags input w) as (?&?&_). done.
  - intros fuel cap w.
    destruct (predict_video_flags fuel cap w) as (?&?&_). done.
  - intros input i w.
    destruct (predict_image_tick_flags input i w) as (?&?&_). done.
  - intros frame frame_id w.
    destruct (predict_video_frame_flags frame frame_id w) as (?&?&_). done.
Qed.

(** ** The action stage *)

Section ActionFacts.
Context {C : Collaborators}.

Lemma same_action_entry_refl w : same_action_entry w w.
Proof. reflexivity. Qed.

Lemma same_action_entry_trans w1 w2 w3 :
  same_action_entry w1 w2 -> same_action_entry w2 w3 ->
  same_action_entry w1 w3.
Proof. unfold same_action_entry. congruence. Qed.

Lemma update_other_entry (res : pydict) name other r r' :
  Result.update res name r = inr r' -> other <> name ->
  Result.get other r' = Result.get other r.
Proof.
  unfold Result.update. destruct (Result.res_dict r !! name); [|done].
  intros [= <-] Hne. rewrite !get_lookup. simpl. by rewrite lookup_insert_ne.
Qed.

Lemma res_update_same_action res name :
  name <> "action" -> preserves same_action_entry (res_update res name).
Proof.
  intros Hne w. unfold res_update, same_action_entry.
  destruct (Result.update res name (pipeline_res (self w))) eqn:E; simpl.
  - reflexivity.
  - eapply update_other_entry; [exact E|]. congruence.
Qed.

Ltac action_leaf :=
  first
    [ apply res_update_same_action; discriminate
    | let w := fresh "w" in
      intros w; unfold on_timer, modify_self, emit; simpl;
      apply same_action_entry_refl ].

Ltac action_frame :=
  preserve_with same_action_entry_refl same_action_entry_trans action_leaf.

Lemma predict_video_frame_same_action frame frame_id :
  preserves same_action_entry (predict_video_frame frame frame_id).
Proof.
  unfold predict_video_frame, action_stage, visualize_video. action_frame.
Qed.

#[local] Hint Resolve predict_video_frame_same_action : preserve.

Lemma video_loop_same_action fuel cap frame_id :
  preserves same_action_entry (video_loop fuel cap frame_id).
Proof.
  revert cap frame_id. induction fuel as [|fuel IH]; intros cap frame_id;
    simpl; action_frame.
Qed.

#[local] Hint Resolve video_loop_same_action : preserve.

Lemma predict_video_same_action fuel cap :
  preserves same_action_entry (predict_video fuel cap).
Proof. unfold predict_video. action_frame. Qed.

End ActionFacts.

(** C3 fails on the code: with the action stage enabled the constructor of
    a video predictor evaluates [KeyPointDetector], which the module never
    binds; [predict_video] never changes the ['action'] entry of the store;
    and a predictor given the three collaborators by hand dispatches the
    action predictor when the window is full (second frame, window of two)
    and then raises on the unbound name [action] instead of storing the
    result. *)
Theorem action_result_never_stored (C : Collaborators) :
  (forall det mot attr action vis multi_camera0 output_dir0,
      PipePredictor_init (mkCfg det (Some mot) attr (Some action) vis) true
        multi_camera0 output_dir0
      = inl (NameError "KeyPointDetector"))
  /\ (forall fuel cap w,
        Result.get "action" (pipeline_res (self (snd (predict_video fuel cap w))))
        = Result.get "action" (pipeline_res (self w)))
  /\ (let rw := predict_video (C:=sample) 5 (frames_then_end 3) action_world in
      fst rw = inl (NameError "action")
      /\ mot_calls (trace (snd rw)) = [0; 1]
      /\ action_calls (trace (snd rw)) = [PyInt 2]
      /\ Result.get "action" (pipeline_res (self (snd rw))) = Some ∅
      /\ last (trace (snd rw)) = Some (EvAction (PyInt 2))).
Proof.
  split; [|split].
  - intros det mot attr action vis m o.
    unfold PipePredictor_init. simpl. destruct attr; reflexivity.
  - intros fuel cap w. apply predict_video_same_action.
  - cbv zeta. repeat split; vm_compute; reflexivity.
Qed.

(** ** Several streams *)

Lemma build_predictors_fresh {C : Collaborators} cfg0 o caps ps :
  build_predictors cfg0 o caps = inr ps ->
  length ps = length caps
  /\ Forall (fun p => pipeline_res p = Result.init
                      /\ pipe_timer p = PipeTimer_init
                      /\ multi_camera p = true /\ is_video p = true) ps.
Proof.
  revert ps. induction caps as [|c caps IH]; intros ps; simpl.
  - intros [= <-]. split; [done|constructor].
  - destruct (PipePredictor_init cfg0 true true o) as [e|p] eqn:E;
      simpl; [done|].
    destruct (build_predictors cfg0 o caps) as [e|ps'] eqn:E2;
      simpl; [done|].
    intros [= <-]. destruct (IH ps' eq_refl) as [Hlen Hall].
    split; [simpl; by rewrite Hlen|]. constructor; [|exact Hall].
    unfold PipePredictor_init, bind_exn, cfg_section in E. simpl in E.
    destruct (MOT cfg0); [|done]. destruct (ATTR cfg0), (ACTION cfg0);
      simpl in E;
      repeat match type of E with
             | context [load_global ?n] => destruct (load_global n)
             end; simpl in E; try discriminate E;
      injection E as <-; done.
Qed.

(** C7 fails on the code: a run in multi-camera mode never completes. When
    every stream has been processed, [run] evaluates [mtmct_process], which
    the module never binds; and with two streams of two frames each, built
    by the constructor (one predictor per stream, each with a fresh store
    and timer), the first frame of the first stream raises on
    [self.get_valid_instance], which [PipePredictor] does not define: no
    snapshot is collected and the second stream is never read. *)
Theorem multi_camera_run_never_completes (C : Collaborators) :
  (forall fuel v input preds clock0 trace0,
      out_result
        (Pipeline_run fuel (mkPipeline true v input preds) clock0 trace0)
      <> inr true)
  /\ match two_stream_pipeline with
     | inl _ => False
     | inr pl =>
         let o := Pipeline_run (C:=sample) 10 pl 0 [] in
         pl_multi_camera pl = true
         /\ (exists pa pb, pl_predictor pl = Many [pa; pb]
               /\ pipeline_res pa = Result.init
               /\ pipeline_res pb = Result.init)
         /\ out_result o = inl (AttributeError "get_valid_instance")
         /\ out_multi_res o = []
         /\ mot_calls (out_trace o) = [0]
         /\ read_calls (out_trace o) = [true]
     end.
Proof.
  split.
  - intros fuel v input preds clock0 trace0. unfold Pipeline_run. simpl.
    destruct preds as [p|ps]; [discriminate|].
    destruct input as [files|cap|caps]; try discriminate.
    destruct (out_result (run_streams fuel ps caps clock0 trace0 []))
      as [e|[|]] eqn:E; simpl.
    + rewrite E. discriminate.
    + vm_compute. discriminate.
    + rewrite E. discriminate.
  - vm_compute two_stream_pipeline. cbv zeta.
    split; [reflexivity|]. split; [do 2 eexists; repeat split|].
    repeat split; vm_compute; reflexivity.
Qed.

(** ** Running a method to its result *)

Lemma sample_worlds_constructed bs attr vis :
  fresh_world (C:=sample) (image_cfg bs attr vis) false false
    = Some (sample_image_world bs attr vis)
  /\ fresh_world (C:=sample) (video_cfg attr false vis) true false
     = Some (sample_video_world attr vis).
Proof. destruct attr; split; reflexivity. Qed.

Lemma store_ok_init {A : Type} : store_ok (@Result.init A).
Proof. intros name. apply stage_keys_init. Qed.

Lemma store_ok_put_ok {A : Type} (res : gmap string (pyval A)) name r :
  store_ok r -> name ∈ Result.stage_keys -> store_ok (store_put name res r).
Proof.
  intros Hok Hin n. unfold store_put. simpl. rewrite lookup_insert_is_Some.
  rewrite <- (Hok n). destruct (proj2 (Hok name) Hin) as [old Hold].
  split; [intros [<-|[_ ?]]; [by eexists|done]|].
  intros H. destruct (decide (name = n)); [by left|by right].
Qed.

Lemma update_store_put {A : Type} (res : gmap string (pyval A)) name r :
  store_ok r -> name ∈ Result.stage_keys ->
  Result.update res name r = inr (store_put name res r).
Proof.
  intros Hok Hin. destruct (proj2 (Hok name) Hin) as [old Hold].
  unfold Result.update, store_put. by rewrite Hold.
Qed.

Lemma get_store_put_eq {A : Type} (res : gmap string (pyval A)) name r :
  Result.get name (store_put name res r)
  = Some (res ∪ default ∅ (Result.res_dict r !! name)).
Proof. rewrite get_lookup. unfold store_put. simpl. by rewrite lookup_insert_eq. Qed.

Lemma get_store_put_ne {A : Type} (res : gmap string (pyval A)) name other r :
  name <> other ->
  Result.get other (store_put name res r) = Result.get other r.
Proof.
  intros Hne. rewrite !get_lookup. unfold store_put. simpl.
  by rewrite lookup_insert_ne.
Qed.

Section WeakestPre.
Context {C : Collaborators}.

Lemma wp_ret {X : Type} (x : X) Q w : Q x w -> wp (ret x) Q w.
Proof. intros H. by exists x, w. Qed.

Lemma wp_bind {X Y : Type} (m : M X) (k : X -> M Y) Q w :
  wp m (fun x w1 => wp (k x) Q w1) w -> wp (bind m k) Q w.
Proof.
  intros (x & w1 & Hm & y & w2 & Hk & HQ). exists y, w2.
  split; [|exact HQ]. unfold bind. by rewrite Hm.
Qed.

Lemma wp_read_self {X : Type} (f : PipePredictor -> X) Q w :
  Q (f (self w)) w -> wp (read_self f) Q w.
Proof. intros H. by exists (f (self w)), w. Qed.

Lemma wp_now Q w : Q (clock w) w -> wp now Q w.
Proof. intros H. by exists (clock w), w. Qed.

Lemma wp_attribute {X : Type} name (f : PipePredictor -> option X) x Q w :
  f (self w) = Some x -> Q x w -> wp (attribute name f) Q w.
Proof.
  intros Hf H. exists x, w. split; [|exact H]. unfold attribute.
  by rewrite Hf.
Qed.

Lemma wp_emit e Q w :
  (forall w', self w' = self w -> clock w' = clock w + elapsed e ->
              trace w' = trace w ++ [e] -> Q tt w') ->
  wp (emit e) Q w.
Proof. intros H. eexists tt, _. split; [reflexivity|]. by apply H. Qed.

Lemma wp_modify_self f Q w :
  (forall w', self w' = f (self w) -> clock w' = clock w ->
              trace w' = trace w -> Q tt w') ->
  wp (modify_self f) Q w.
Proof. intros H. eexists tt, _. split; [reflexivity|]. by apply H. Qed.

Lemma wp_res_update (res : gmap string (pyval ndarray)) name Q w :
  store_ok (pipeline_res (self w)) -> name ∈ Result.stage_keys ->
  (forall w',
      self w' = set_pipeline_res (store_put name res (pipeline_res (self w)))
                  (self w) ->
      clock w' = clock w -> trace w' = trace w -> Q tt w') ->
  wp (res_update res name) Q w.
Proof.
  intros Hok Hin H. eexists tt, _. split.
  - unfold res_update. by rewrite (update_store_put res name _ Hok Hin).
  - by apply H.
Qed.

Lemma decode_batch_run_acc l acc w :
  for_fold l acc
    (fun acc f =>
       bind (emit (EvDecode f)) (fun _ => ret (acc ++ [decode_image f]))) w
  = (inr (acc ++ map decode_image l),
     mkWorld (self w) (clock_after (map EvDecode l) (clock w))
       (trace w ++ map EvDecode l)).
Proof.
  revert acc w. induction l as [|f l IH]; intros acc w; simpl.
  - unfold ret. rewrite !app_nil_r. by destruct w.
  - unfold bind at 1. unfold bind at 1. unfold emit, ret. rewrite IH. simpl.
    by rewrite <- !app_assoc.
Qed.

Lemma wp_decode_batch l Q w :
  (forall w', self w' = self w ->
              clock w' = clock_after (map EvDecode l) (clock w) ->
              trace w' = trace w ++ map EvDecode l ->
              Q (map decode_image l) w') ->
  wp (decode_batch l) Q w.
Proof.
  intros H. eexists _, _. split; [apply decode_batch_run_acc|]. by apply H.
Qed.

Lemma wp_result {X : Type} (m : M X) Q w :
  wp m Q w -> exists x, fst (m w) = inr x /\ Q x (snd (m w)).
Proof. intros (x & w' & Hm & HQ). exists x. rewrite Hm. by split. Qed.

Lemma attr_calls_app (t1 t2 : list (event ndarray)) :
  attr_calls (t1 ++ t2) = attr_calls t1 ++ attr_calls t2.
Proof. apply omap_app. Qed.

Lemma attr_calls_decode (l : list string) :
  attr_calls (map (@EvDecode ndarray) l) = [].
Proof. induction l as [|f l IH]; [done|exact IH]. Qed.

End WeakestPre.

Ltac solve_key :=
  unfold Result.stage_keys;
  repeat first [apply list_elem_of_here | apply list_elem_of_further].

(** Rewrites the attributes of the worlds met so far down to those of the
    first world. *)
Ltac chase :=
  repeat match goal with
         | H : self ?w = _ |- context [self ?w] => rewrite H; simpl
         | H : trace ?w = _ |- context [trace ?w] => rewrite H
         | H : clock ?w = _ |- context [clock ?w] => rewrite H
         end.

Ltac solve_store :=
  chase; repeat (apply store_ok_put_ok; [|solve_key]); assumption.

Ltac wp_step :=
  lazymatch goal with
  | |- wp (bind _ _) _ _ => apply wp_bind
  | |- wp (ret _) _ _ => apply wp_ret
  | |- wp (read_self _) _ _ => apply wp_read_self
  | |- wp now _ _ => apply wp_now
  | |- wp (emit _) _ _ => apply wp_emit; intros ? ? ? ?
  | |- wp (modify_self _) _ _ => apply wp_modify_self; intros ? ? ? ?
  | |- wp (decode_batch _) _ _ => apply wp_decode_batch; intros ? ? ? ?
  | |- wp (attribute _ _) _ _ =>
      eapply wp_attribute; [chase; eassumption|]
  | |- wp (res_update _ _) _ _ =>
      apply wp_res_update; [solve_store|solve_key|intros ? ? ? ?]
  end; cbv beta.

Ltac unfold_timer :=
  unfold when, total_time_start, total_time_end, module_time_start,
    module_time_end, img_num_add, on_timer.

(** ** Image mode: no crop group *)

Lemma stages_without_crop_groups {C : Collaborators}
    (input : list string) (i : Z) (w : World) (det : Detector) :
  det_predictor (self w) = Some det ->
  with_attr (self w) = true ->
  store_ok (pipeline_res (self w)) ->
  let batch_file :=
    py_slice input (i * det_batch_size det)
      (Z.min ((i + 1) * det_batch_size det) (py_len input)) in
  let batch_input := map decode_image batch_file in
  crop_image_with_det batch_input (det_predict_image batch_input) = [] ->
  wp (predict_image_stages input i)
    (fun out w' =>
       out = (batch_file, batch_input)
       /\ (Result.get "attr" (pipeline_res (self w')) ≫= (.!! "output"))
          = Some (PyList [])
       /\ attr_calls (trace w') = attr_calls (trace w)) w.
Proof.
  intros Hdet Hattr Hok bf bi Hcrop. subst bi bf.
  unfold predict_image_stages, past_warmup, attr_over_groups.
  destruct (warmup_frame (self w) <? i) eqn:Ht; unfold_timer;
    repeat first
      [ wp_step
      | progress (chase; rewrite ?Ht, ?Hattr, ?Hcrop; simpl for_fold) ];
    (split; [reflexivity|]; split;
     [ chase; rewrite get_store_put_eq; cbv [mbind option_bind];
       apply lookup_union_Some_l, lookup_singleton_eq
     | chase; rewrite !attr_calls_app, attr_calls_decode; simpl;
       by rewrite !app_nil_r ]).
Qed.

(** C5: in an image-mode tick with the attribute stage on, when the crops
    of the detector's result make no group, the stages of the tick return
    without an exception, no attribute call is made, and the store has,
    under ['attr'], an ['output'] that is the empty list. *)
Theorem empty_crop_groups_store_empty_attr (C : Collaborators)
    (input : list string) (i : Z) (w : World) (det : Detector) :
  det_predictor (self w) = Some det ->
  with_attr (self w) = true ->
  store_ok (pipeline_res (self w)) ->
  let batch_file :=
    py_slice input (i * det_batch_size det)
      (Z.min ((i + 1) * det_batch_size det) (py_len input)) in
  let batch_input := map decode_image batch_file in
  crop_image_with_det batch_input (det_predict_image batch_input) = [] ->
  let rw := predict_image_stages input i w in
  fst rw = inr (batch_file, batch_input)
  /\ (Result.get "attr" (pipeline_res (self (snd rw))) ≫= (.!! "output"))
     = Some (PyList [])
  /\ attr_calls (trace (snd rw)) = attr_calls (trace w).
Proof.
  intros Hdet Hattr Hok bf bi Hcrop rw.
  destruct (wp_result _ _ _
              (stages_without_crop_groups input i w det Hdet Hattr Hok Hcrop))
    as (out & Hout & -> & H).
  split; [exact Hout|exact H].
Qed.

Lemma empty_crop_groups_store_empty_attr_witness :
  let input := ["a.jpg"] in
  let w := sample_image_world 1 true false in
  let det := mkDetector 1 in
  let batch_file :=
    py_slice input (0 * det_batch_size det)
      (Z.min ((0 + 1) * det_batch_size det) (py_len input)) in
  let batch_input := map (decode_image (Collaborators:=sample)) batch_file in
  let rw := predict_image_stages (C:=sample) input 0 w in
  fst rw = inr (batch_file, batch_input)
  /\ (Result.get "attr" (pipeline_res (self (snd rw))) ≫= (.!! "output"))
     = Some (PyList [])
  /\ attr_calls (trace (snd rw)) = attr_calls (trace w).
Proof.
  intros input w det.
  apply (empty_crop_groups_store_empty_attr sample input 0 w det).
  - reflexivity.
  - reflexivity.
  - apply store_ok_init.
  - reflexivity.
Defined.

(** ** Inverting a run *)

Section Inversion.
Context {C : Collaborators}.

Lemma bind_inv {X Y : Type} (m : M X) (k : X -> M Y) w y w2 :
  bind m k w = (inr y, w2) ->
  exists x w1, m w = (inr x, w1) /\ k x w1 = (inr y, w2).
Proof.
  unfold bind. destruct (m w) as [[e|x] w1]; [discriminate|].
  intros H. by exists x, w1.
Qed.

Lemma preserves_run R {X : Type} (m : M X) w r w' :
  preserves R m -> m w = (r, w') -> R w w'.
Proof. intros Hp Hm. specialize (Hp w). by rewrite Hm in Hp. Qed.

Lemma attribute_inv {X : Type} name (f : PipePredictor -> option X) w x w' :
  attribute name f w = (inr x, w') -> f (self w) = Some x /\ w' = w.
Proof.
  unfold attribute. destruct (f (self w)); [|discriminate].
  by intros [= -> ->].
Qed.

Lemma decode_batch_run l w :
  decode_batch l w
  = (inr (map decode_image l),
     mkWorld (self w) (clock_after (map EvDecode l) (clock w))
       (trace w ++ map EvDecode l)).
Proof. exact (decode_batch_run_acc l [] w). Qed.

End Inversion.

Ltac inv_bind H :=
  let x := fresh "x" in
  let w1 := fresh "w" in
  let Hm := fresh "Hm" in
  apply bind_inv in H; destruct H as (x & w1 & Hm & H); cbv beta in H.

(** Turns every hypothesis on the run of a block that keeps [R] into the
    fact that [R] relates the two worlds. *)
Ltac to_frame R tac :=
  repeat match goal with
         | Hm : ?m ?wa = (inr ?x, ?wb) |- _ =>
             let HR := fresh "HR" in
             assert (HR : preserves R m) by (solve [tac]);
             apply (preserves_run R m wa (inr x) wb HR) in Hm; clear HR
         end.

(** ** Warm-up *)

Section WarmUp.
Context {C : Collaborators}.

Lemma same_timer_refl w : same_timer w w.
Proof. by split. Qed.

Lemma same_timer_trans w1 w2 w3 :
  same_timer w1 w2 -> same_timer w2 w3 -> same_timer w1 w3.
Proof. unfold same_timer. intros [? ?] [? ?]. split; congruence. Qed.

Ltac timer_pre :=
  idtac;
  match goal with
  | |- preserves _ (when false _) => apply (preserves_ret _ same_timer_refl)
  end.

Ltac timer_leaf :=
  let w := fresh "w" in
  intros w; unfold modify_self, emit, res_update; simpl;
  try match goal with
      | |- context [Result.update ?a ?b ?c] => destruct (Result.update a b c)
      end;
  simpl; apply same_timer_refl || (by split).

Ltac timer_frame :=
  repeat first
    [ timer_pre
    | preserve_step same_timer_refl same_timer_trans timer_leaf ].

Lemma image_warmup_tick (input : list string) (i : Z) (w w' : World) out :
  predict_image_stages input i w = (inr out, w') ->
  i <= warmup_frame (self w) ->
  total_time (pipe_timer (self w')) = total_time (pipe_timer (self w))
  /\ (forall s, module_time (pipe_timer (self w')) s
                = module_time (pipe_timer (self w)) s)
  /\ img_num (pipe_timer (self w'))
     = img_num (pipe_timer (self w)) + py_len (snd out).
Proof.
  intros H Hi. unfold predict_image_stages in H.
  do 3 inv_bind H.
  apply attribute_inv in Hm. destruct Hm as [Hdet ->].
  rewrite decode_batch_run in Hm0. injection Hm0 as <- <-.
  unfold past_warmup, read_self in Hm1. injection Hm1 as <- <-.
  simpl in H.
  assert (Hf : (warmup_frame (self w) <? i) = false) by by apply Z.ltb_ge.
  rewrite Hf in H.
  do 9 inv_bind H. unfold ret in H. injection H as <- <-.
  to_frame same_timer ltac:(timer_frame).
  unfold img_num_add, on_timer, modify_self in Hm6. injection Hm6 as _ <-.
  destruct Hm as [T0 _], Hm0 as [T1 _], Hm1 as [T2 _], Hm2 as [T3 _],
    Hm3 as [T4 _], Hm4 as [T5 _], Hm5 as [T6 _], Hm7 as [T7 _].
  simpl in *. rewrite T7. simpl.
  rewrite T6, T5, T4, T3, T2, T1, T0.
  split; [reflexivity|]. split; [intros []; reflexivity|].
  reflexivity.
Qed.

(** The sibling path: a warm-up frame of a video leaves the whole timer as
    it is, [img_num] included. *)
Lemma video_warmup_frame_leaves_timer frame frame_id (w w' : World) :
  predict_video_frame frame frame_id w = (inr tt, w') ->
  frame_id <= warmup_frame (self w) ->
  pipe_timer (self w') = pipe_timer (self w).
Proof.
  intros H Hi. unfold predict_video_frame in H.
  inv_bind H. unfold past_warmup, read_self in Hm. injection Hm as <- <-.
  assert (Hf : (warmup_frame (self w) <? frame_id) = false)
    by by apply Z.ltb_ge.
  rewrite Hf in H. unfold action_stage, visualize_video in H.
  to_frame same_timer ltac:(timer_frame). by destruct H.
Qed.

End WarmUp.

(** C1 fails on the code in image mode: a batch whose index is at most the
    warm-up count adds nothing to the accumulators of the stages nor to the
    total time, but it adds the number of its images to [img_num], since
    the increment of [predict_image] is outside the warm-up test (the one
    of [predict_video] is inside it). *)
Theorem image_warmup_batch_counts_images (C : Collaborators)
    (input : list string) (i : Z) (w w' : World)
    (out : list string * list ndarray) :
  predict_image_stages input i w = (inr out, w') ->
  i <= warmup_frame (self w) ->
  total_time (pipe_timer (self w')) = total_time (pipe_timer (self w))
  /\ (forall s, module_time (pipe_timer (self w')) s
                = module_time (pipe_timer (self w)) s)
  /\ img_num (pipe_timer (self w'))
     = img_num (pipe_timer (self w)) + py_len (snd out).
Proof. apply image_warmup_tick. Qed.

Lemma image_warmup_batch_counts_images_witness :
  let w := sample_image_world 2 false false in
  let rw := predict_image_stages (C:=sample) ["a"; "b"; "c"] 0 w in
  fst rw = inr (["a"; "b"], [1; 1])
  /\ 0 <= warmup_frame (self w)
  /\ total_time (pipe_timer (self (snd rw))) = total_time (pipe_timer (self w))
  /\ (forall s, module_time (pipe_timer (self (snd rw))) s
                = module_time (pipe_timer (self w)) s)
  /\ img_num (pipe_timer (self (snd rw))) = 0 + 2.
Proof.
  cbv zeta. split; [reflexivity|]. split; [simpl; lia|].
  apply (image_warmup_batch_counts_images sample ["a"; "b"; "c"] 0
           (sample_image_world 2 false false)
           (snd (predict_image_stages (C:=sample) ["a"; "b"; "c"] 0
                   (sample_image_world 2 false false)))
           (["a"; "b"], [1; 1])).
  - reflexivity.
  - simpl. lia.
Defined.

(** ** The frame loop *)

Section Video.
Context {C : Collaborators}.

Lemma wp_mono {X : Type} (m : M X) (Q Q' : X -> World -> Prop) w :
  wp m Q w -> (forall x w', Q x w' -> Q' x w') -> wp m Q' w.
Proof. intros (x & w' & Hm & HQ) H. exists x, w'. split; [done|by apply H]. Qed.

Lemma mot_calls_app (t1 t2 : list (event ndarray)) :
  mot_calls (t1 ++ t2) = mot_calls t1 ++ mot_calls t2.
Proof. apply omap_app. Qed.

Lemma read_calls_app (t1 t2 : list (event ndarray)) :
  read_calls (t1 ++ t2) = read_calls t1 ++ read_calls t2.
Proof. apply omap_app. Qed.

Lemma video_frame_run frame frame_id w :
  video_ready w ->
  wp (predict_video_frame frame frame_id)
    (fun _ w' =>
       video_ready w'
       /\ exists evs, trace w' = trace w ++ evs
            /\ mot_calls evs = [frame] /\ read_calls evs = []) w.
Proof.
  intros ([seen Hmot] & Hact & Hmc & Hvis & Hattr & Hok).
  unfold predict_video_frame, past_warmup.
  destruct (warmup_frame (self w) <? frame_id) eqn:Ht;
    destruct (with_attr (self w)) eqn:Hwa;
    try (destruct (Hattr eq_refl) as [[] Hap]);
    unfold_timer;
    repeat first
      [ wp_step
      | progress (chase; rewrite ?Ht, ?Hwa, ?Hact, ?Hmc, ?Hvis; simpl) ].
  all: split.
  all: try (unfold video_ready; chase; rewrite ?Hact, ?Hmc, ?Hvis;
      repeat split; try done; try (by eexists);
      try (intros _; by eexists);
      try (repeat (apply store_ok_put_ok; [|solve_key]); assumption)).
  all: try (rewrite Hwa; discriminate).
  all: try (intros _; rewrite Hap; by eexists).
  all: eexists; split;
    [ chase; rewrite <- ?app_assoc; reflexivity | split; reflexivity ].
Qed.

Lemma init_video_ready cfg0 o p clock0 trace0 :
  PipePredictor_init cfg0 true false o = inr p ->
  visual cfg0 = false ->
  video_ready (mkWorld p clock0 trace0).
Proof.
  unfold PipePredictor_init, bind_exn, cfg_section, cfg_flag. simpl.
  intros H Hvis. destruct (MOT cfg0); [|discriminate H].
  destruct (ATTR cfg0), (ACTION cfg0); simpl in H;
    try (vm_compute in H; discriminate H);
    injection H as <-; unfold video_ready; simpl;
    (split; [by exists []|]; split; [done|]; split; [done|];
     split; [exact Hvis|]; split; [|apply store_ok_init];
     intros Hattr; first [discriminate Hattr|by exists tt]).
Qed.


End Video.

(** ** The frame loop with rendering *)

Section Rendered.
Context {C : Collaborators}.






End Rendered.





(** ** Batches *)

Section Batches.
Context {C : Collaborators}.

Lemma same_det_refl w : same_det w w.
Proof. by split. Qed.

Lemma same_det_trans w1 w2 w3 :
  same_det w1 w2 -> same_det w2 w3 -> same_det w1 w3.
Proof. unfold same_det. intros [? ?] [? ?]. split; congruence. Qed.

Lemma det_calls_app (t1 t2 : list (event ndarray)) :
  det_calls (t1 ++ t2) = det_calls t1 ++ det_calls t2.
Proof. apply omap_app. Qed.

Lemma det_calls_decode (l : list string) :
  det_calls (map (@EvDecode ndarray) l) = [].
Proof. induction l as [|f l IH]; [done|exact IH]. Qed.

Ltac det_leaf :=
  let w := fresh "w" in
  intros w; unfold on_timer, modify_self, emit, res_update; simpl;
  try match goal with
      | |- context [Result.update ?a ?b ?c] => destruct (Result.update a b c)
      end;
  unfold same_det; simpl;
  (split;
   [ first [reflexivity | rewrite det_calls_app; simpl; by rewrite app_nil_r]
   | reflexivity ]).

Ltac det_frame :=
  preserve_with same_det_refl same_det_trans det_leaf.

Lemma tick_det_call input i w w' det :
  predict_image_tick input i w = (inr tt, w') ->
  det_predictor (self w) = Some det ->
  det_calls (trace w')
  = det_calls (trace w)
      ++ [map decode_image (batch_file_of input (det_batch_size det) i)]
  /\ det_predictor (self w') = Some det.
Proof.
  intros H Hdet. unfold predict_image_tick in H.
  inv_bind H. unfold predict_image_stages in Hm.
  do 6 inv_bind Hm.
  apply attribute_inv in Hm0. destruct Hm0 as [Hdet' ->].
  rewrite Hdet in Hdet'. injection Hdet' as <-.
  rewrite decode_batch_run in Hm1. injection Hm1 as <- <-.
  unfold emit in Hm5. injection Hm5 as _ <-.
  unfold visualize_image in H.
  to_frame same_det ltac:(det_frame).
  destruct Hm2 as [A1 B1], Hm3 as [A2 B2], Hm4 as [A3 B3], Hm as [A4 B4],
    H as [A5 B5].
  simpl in *. split.
  - rewrite A5, A4. simpl. rewrite det_calls_app. simpl.
    rewrite A3, A2, A1. rewrite det_calls_app, det_calls_decode.
    by rewrite app_nil_r.
  - rewrite B5, B4. simpl. by rewrite B3, B2, B1.
Qed.

Lemma ticks_det_calls input det l :
  forall w w',
    for_each l (predict_image_tick input) w = (inr tt, w') ->
    det_predictor (self w) = Some det ->
    det_calls (trace w')
    = det_calls (trace w)
        ++ map (fun i =>
                  map decode_image (batch_file_of input (det_batch_size det) i))
               l.
Proof.
  induction l as [|i l IH]; intros w w' H Hdet; simpl in H.
  - unfold ret in H. injection H as <-. simpl. by rewrite app_nil_r.
  - inv_bind H. destruct x.
    destruct (tick_det_call _ _ _ _ _ Hm Hdet) as [Htr Hdet'].
    rewrite (IH _ _ H Hdet'), Htr. simpl. by rewrite <- app_assoc.
Qed.

Lemma take_take_drop_add {X : Type} (a b : nat) (l : list X) :
  firstn a l ++ firstn b (skipn a l) = firstn (a + b) l.
Proof.
  revert l. induction a as [|a IH]; intros l; [done|].
  destruct l as [|x l]; simpl.
  - by rewrite firstn_nil.
  - by rewrite IH.
Qed.

Lemma spec_batches_prefix {X : Type} (input : list X) (n k : nat) :
  concat
    (map (fun i : nat =>
            firstn (Nat.min ((i + 1) * n) (length input) - i * n)
                   (skipn (i * n) input))
         (seq 0 k))
  = firstn (Nat.min (k * n) (length input)) input.
Proof.
  induction k as [|k IH]; [done|].
  rewrite seq_S, map_app, concat_app, IH. simpl. rewrite app_nil_r.
  destruct (Nat.le_gt_cases (k * n) (length input)) as [Hle|Hgt].
  - rewrite (Nat.min_l _ _ Hle), take_take_drop_add. f_equal. lia.
  - rewrite (Nat.min_r (k * n)) by lia.
    replace (Nat.min ((k + 1) * n) (length input) - k * n)%nat with 0%nat
      by lia.
    simpl. rewrite app_nil_r. f_equal. lia.
Qed.

Lemma div_up_covers (len n : nat) :
  (0 < n)%nat -> (len <= (len + n - 1) / n * n)%nat.
Proof.
  intros Hn. pose proof (Nat.div_mod_eq (len + n - 1) n) as Hd.
  pose proof (Nat.mod_upper_bound (len + n - 1) n ltac:(lia)) as Hm.
  nia.
Qed.

Lemma spec_batches_concat {X : Type} (input : list X) (n : nat) :
  (0 < n)%nat -> concat (spec_batches input n) = input.
Proof.
  intros Hn. unfold spec_batches. rewrite spec_batches_prefix.
  rewrite Nat.min_r by (by apply div_up_covers).
  apply firstn_all.
Qed.

Lemma ceil_div_div_up (len : nat) (bs : Z) :
  0 < bs ->
  ceil_div (Z.of_nat len) bs
  = inr (Z.of_nat ((len + Z.to_nat bs - 1) / Z.to_nat bs)).
Proof.
  intros Hbs. unfold ceil_div.
  destruct (bs =? 0) eqn:E; [apply Z.eqb_eq in E; lia|]. f_equal.
  rewrite Nat2Z.inj_div, Nat2Z.inj_sub, Nat2Z.inj_add, Z2Nat.id by lia.
  set (L := Z.of_nat len). change (Z.of_nat 1) with 1.
  assert (HL : 0 <= L) by (subst L; lia).
  pose proof (Z.div_mod (L + bs - 1) bs ltac:(lia)) as Hd.
  pose proof (Z.mod_pos_bound (L + bs - 1) bs Hbs) as Hm.
  set (q := (L + bs - 1) / bs) in *.
  assert (Hq : - L / bs = - q).
  { symmetry. apply (Z.div_unique_pos _ _ _ (bs * q - L)); lia. }
  lia.
Qed.

Lemma batch_file_of_spec {X : Type} (input : list X) (bs : Z) (k : nat) :
  0 < bs ->
  batch_file_of input bs (Z.of_nat k)
  = firstn (Nat.min ((k + 1) * Z.to_nat bs) (length input) - k * Z.to_nat bs)
           (skipn (k * Z.to_nat bs) input).
Proof.
  intros Hbs. unfold batch_file_of, py_slice, slice_bound, py_len.
  set (n := Z.to_nat bs). assert (Hn : bs = Z.of_nat n) by (subst n; lia).
  destruct (Z.of_nat k * bs <? 0) eqn:E1; [apply Z.ltb_lt in E1; nia|].
  destruct (Z.min ((Z.of_nat k + 1) * bs) (Z.of_nat (length input)) <? 0)
    eqn:E2; [apply Z.ltb_lt in E2; nia|].
  destruct (Nat.le_gt_cases (k * n) (length input)) as [Hle|Hgt].
  - f_equal; [nia|]. f_equal. nia.
  - rewrite (skipn_all2 (n:=k * n)) by lia.
    rewrite skipn_all2 by (rewrite Z.min_r by nia; lia).
    by rewrite !firstn_nil.
Qed.

Lemma code_batches_spec (input : list string) (bs : Z) :
  0 < bs ->
  map (fun i => map decode_image (batch_file_of input bs i))
      (py_range (Z.of_nat ((length input + Z.to_nat bs - 1) / Z.to_nat bs)))
  = map (map decode_image) (spec_batches input (Z.to_nat bs)).
Proof.
  intros Hbs. unfold py_range, spec_batches. rewrite Nat2Z.id.
  rewrite !map_map. apply map_ext. intros k.
  by rewrite batch_file_of_spec.
Qed.

End Batches.

(** C2: when [predict_image] returns, the detector has been called once
    per batch, on the decoded slices
    [input[i*batch_size : min((i+1)*batch_size, len(input))]], in order;
    these slices, concatenated, are the input, so that every image is in
    exactly one batch; three images in batches of two make a batch of two
    and a batch of one. *)
Theorem predict_image_batches_partition (C : Collaborators)
    (input : list string) (bs : Z) (w w' : World) :
  0 < bs ->
  det_predictor (self w) = Some (mkDetector bs) ->
  predict_image input w = (inr tt, w') ->
  let batches := spec_batches input (Z.to_nat bs) in
  det_calls (trace w') = det_calls (trace w) ++ map (map decode_image) batches
  /\ concat batches = input
  /\ length batches
     = ((length input + Z.to_nat bs - 1) / Z.to_nat bs)%nat
  /\ (length input = 3%nat -> bs = 2 ->
      map length batches = [2%nat; 1%nat]).
Proof.
  intros Hbs Hdet H batches. split; [|split; [|split]].
  - unfold predict_image in H. do 2 inv_bind H.
    apply attribute_inv in Hm. destruct Hm as [Hdet' ->].
    rewrite Hdet in Hdet'. injection Hdet' as <-. simpl in Hm0.
    unfold lift, py_len in Hm0. rewrite ceil_div_div_up in Hm0 by exact Hbs.
    injection Hm0 as <- <-.
    rewrite (ticks_det_calls input (mkDetector bs) _ _ _ H Hdet). f_equal.
    by apply code_batches_spec.
  - apply spec_batches_concat. lia.
  - unfold batches, spec_batches. by rewrite length_map, length_seq.
  - intros Hlen ->. destruct input as [|a [|b [|c [|d input]]]]; try done.
Qed.

Lemma predict_image_batches_partition_witness :
  let input := ["a"; "b"; "c"] in
  let w := sample_image_world 2 false false in
  let w' := snd (predict_image (C:=sample) input w) in
  let batches := spec_batches input (Z.to_nat 2) in
  det_calls (trace w')
    = det_calls (trace w)
        ++ map (map (decode_image (Collaborators:=sample))) batches
  /\ concat batches = input
  /\ length batches
     = ((length input + Z.to_nat 2 - 1) / Z.to_nat 2)%nat
  /\ (length input = 3%nat -> 2 = 2 ->
      map length batches = [2%nat; 1%nat]).
Proof.
  intros input w w'.
  apply (predict_image_batches_partition sample input 2 w w').
  - lia.
  - reflexivity.
  - assert (Hfst : fst (predict_image (C:=sample) input w) = inr tt)
      by (vm_compute; reflexivity).
    subst w'. destruct (predict_image (C:=sample) input w) as [r w0].
    simpl in Hfst. rewrite Hfst. reflexivity.
Defined.

(** * Further properties *)

(** ** What a loop leaves alone *)

Section Frames.
Context {C : Collaborators}.

Lemma same_events_refl keep w : same_events keep w w.
Proof. reflexivity. Qed.

Lemma same_events_trans keep w1 w2 w3 :
  same_events keep w1 w2 -> same_events keep w2 w3 -> same_events keep w1 w3.
Proof. unfold same_events. congruence. Qed.

Lemma same_keys_refl w : same_keys w w.
Proof. by intros name. Qed.

Lemma same_keys_trans w1 w2 w3 :
  same_keys w1 w2 -> same_keys w2 w3 -> same_keys w1 w3.
Proof. intros H1 H2 name. etrans; [apply H2|apply H1]. Qed.

Lemma same_stage_time_refl s w : same_stage_time s w w.
Proof. reflexivity. Qed.

Lemma same_stage_time_trans s w1 w2 w3 :
  same_stage_time s w1 w2 -> same_stage_time s w2 w3 ->
  same_stage_time s w1 w3.
Proof. unfold same_stage_time. congruence. Qed.

Lemma events_where_snoc keep (tr : list (event ndarray)) e :
  keep e = false -> events_where keep (tr ++ [e]) = events_where keep tr.
Proof.
  intros H. unfold events_where. rewrite List.filter_app. simpl.
  rewrite H. apply app_nil_r.
Qed.

Ltac image_leaf :=
  let w := fresh "w" in
  intros w; unfold on_timer, modify_self, emit, res_update; simpl;
  try match goal with
      | |- context [Result.update ?a ?b ?c] => destruct (Result.update a b c)
      end;
  unfold same_events; simpl;
  first [reflexivity | by apply events_where_snoc].

Ltac image_frame :=
  preserve_with (same_events_refl (@is_video_event ndarray))
    (same_events_trans (@is_video_event ndarray)) image_leaf.

Ltac video_leaf :=
  let w := fresh "w" in
  intros w; unfold on_timer, modify_self, emit, res_update; simpl;
  try match goal with
      | |- context [Result.update ?a ?b ?c] => destruct (Result.update a b c)
      end;
  unfold same_events; simpl;
  first [reflexivity | by apply events_where_snoc].

Ltac video_frame :=
  preserve_with (same_events_refl (@is_image_event ndarray))
    (same_events_trans (@is_image_event ndarray)) video_leaf.

Ltac keys_leaf :=
  let w := fresh "w" in
  intros w; unfold on_timer, modify_self, emit, res_update; simpl;
  first
    [ apply same_keys_refl
    | match goal with
      | |- context [Result.update ?a ?b ?c] =>
          let E := fresh "E" in
          destruct (Result.update a b c) eqn:E; simpl;
          [ apply same_keys_refl
          | intros ?; simpl; by apply (update_keys _ _ _ _ _ E) ]
      end ].

Ltac keys_frame := preserve_with same_keys_refl same_keys_trans keys_leaf.

Ltac time_leaf :=
  let w := fresh "w" in
  intros w; unfold on_timer, modify_self, emit, res_update; simpl;
  try match goal with
      | |- context [Result.update ?a ?b ?c] => destruct (Result.update a b c)
      end;
  unfold same_stage_time; simpl; reflexivity.

Ltac time_frame s :=
  preserve_with (same_stage_time_refl s) (same_stage_time_trans s) time_leaf.

Lemma predict_image_no_video_event input :
  preserves (same_events is_video_event) (predict_image input).
Proof.
  unfold predict_image, predict_image_tick, predict_image_stages,
    visualize_image.
  image_frame.
Qed.

Lemma video_frame_no_image_event frame frame_id :
  preserves (same_events is_image_event) (predict_video_frame frame frame_id).
Proof.
  unfold predict_video_frame, action_stage, visualize_video. video_frame.
Qed.

#[local] Hint Resolve video_frame_no_image_event : preserve.

Lemma video_loop_no_image_event fuel :
  forall cap frame_id,
    preserves (same_events is_image_event) (video_loop fuel cap frame_id).
Proof.
  induction fuel as [|fuel IH]; intros cap frame_id; simpl; video_frame.
Qed.

#[local] Hint Resolve video_loop_no_image_event : preserve.

Lemma predict_video_no_image_event fuel cap :
  preserves (same_events is_image_event) (predict_video fuel cap).
Proof. unfold predict_video. video_frame. Qed.

Lemma predict_image_keys input : preserves same_keys (predict_image input).
Proof.
  unfold predict_image, predict_image_tick, predict_image_stages,
    visualize_image.
  keys_frame.
Qed.

Lemma video_frame_keys frame frame_id :
  preserves same_keys (predict_video_frame frame frame_id).
Proof.
  unfold predict_video_frame, action_stage, visualize_video. keys_frame.
Qed.

#[local] Hint Resolve video_frame_keys : preserve.

Lemma video_loop_keys fuel :
  forall cap frame_id, preserves same_keys (video_loop fuel cap frame_id).
Proof.
  induction fuel as [|fuel IH]; intros cap frame_id; simpl; keys_frame.
Qed.

#[local] Hint Resolve video_loop_keys predict_image_keys : preserve.

Lemma run_keys fuel input : preserves same_keys (run fuel input).
Proof. unfold run, predict_video. keys_frame. Qed.

Ltac time_frame_goal :=
  match goal with
  | |- preserves (same_stage_time ?s) _ => time_frame s
  end.

Lemma predict_image_stage_time s input :
  s <> Det -> s <> Attr ->
  preserves (same_stage_time s) (predict_image input).
Proof.
  intros H1 H2.
  unfold predict_image, predict_image_tick, predict_image_stages,
    visualize_image.
  destruct s; try done; time_frame_goal.
Qed.

Lemma video_frame_stage_time s frame frame_id :
  s <> Mot -> s <> Attr ->
  preserves (same_stage_time s) (predict_video_frame frame frame_id).
Proof.
  intros H1 H2.
  unfold predict_video_frame, action_stage, visualize_video.
  destruct s; try done; time_frame_goal.
Qed.

Lemma video_loop_stage_time s fuel :
  s <> Mot -> s <> Attr ->
  forall cap frame_id,
    preserves (same_stage_time s) (video_loop fuel cap frame_id).
Proof.
  intros H1 H2. pose proof (video_frame_stage_time s) as Hf.
  induction fuel as [|fuel IH]; intros cap frame_id; simpl.
  - apply preserves_ret, same_stage_time_refl.
  - apply (preserves_bind _ (same_stage_time_trans s)).
    + intros w. unfold emit. simpl. reflexivity.
    + intros _. destruct (cap_frames cap (cap_pos cap)).
      * apply (preserves_bind _ (same_stage_time_trans s)); [by apply Hf|].
        intros _. apply IH.
      * apply preserves_ret, same_stage_time_refl.
Qed.

Lemma predict_video_stage_time s fuel cap :
  s <> Mot -> s <> Attr ->
  preserves (same_stage_time s) (predict_video fuel cap).
Proof.
  intros H1 H2. pose proof (video_loop_stage_time s fuel H1 H2) as Hl.
  unfold predict_video.
  apply (preserves_bind _ (same_stage_time_trans s));
    [apply preserves_read_self, same_stage_time_refl|intros o].
  apply (preserves_bind _ (same_stage_time_trans s));
    [intros w; reflexivity|intros _].
  apply (preserves_bind _ (same_stage_time_trans s));
    [intros w; reflexivity|intros _].
  apply (preserves_bind _ (same_stage_time_trans s)); [apply Hl|intros b].
  destruct b.
  - apply (preserves_bind _ (same_stage_time_trans s));
      [intros w; reflexivity|intros _].
    apply preserves_ret, same_stage_time_refl.
  - apply preserves_ret, same_stage_time_refl.
Qed.

End Frames.

(** X1: the batch loop makes none of the calls of the frame loop (no read of
    a capture, no tracker, keypoint or action call, no writer), and the
    frame loop none of the calls of the batch loop (no decoding, no
    detector call, no image saved), whether they return or raise. *)
Theorem loops_keep_to_their_stages (C : Collaborators) :
  (forall input w,
      events_where is_video_event (trace (snd (predict_image input w)))
      = events_where is_video_event (trace w))
  /\ (forall fuel cap w,
        events_where is_image_event (trace (snd (predict_video fuel cap w)))
        = events_where is_image_event (trace w)).
Proof.
  split.
  - intros input w. apply predict_image_no_video_event.
  - intros fuel cap w. apply predict_video_no_image_event.
Qed.

(** X2: [run] never adds a key to the store nor removes one, in either mode
    and on every path: after it, the store has a name as a key exactly when
    it had it before. *)
Theorem run_keeps_store_keys (C : Collaborators) (fuel : nat) (input : Input)
    (w : World) (name : string) :
  is_Some (Result.res_dict (pipeline_res (self (snd (run fuel input w))))
             !! name)
  <-> is_Some (Result.res_dict (pipeline_res (self w)) !! name).
Proof. apply run_keys. Qed.

(** X3: the accumulators of the keypoint and action stages are never
    started nor stopped: [predict_image] leaves the accumulators of
    tracking, keypoints and actions as they are, [predict_video] those of
    detection, keypoints and actions, whether they return or raise. *)
Theorem untimed_stages (C : Collaborators) :
  (forall input w,
      let t' := pipe_timer (self (snd (predict_image input w))) in
      time_mot t' = time_mot (pipe_timer (self w))
      /\ time_kpt t' = time_kpt (pipe_timer (self w))
      /\ time_action t' = time_action (pipe_timer (self w)))
  /\ (forall fuel cap w,
        let t' := pipe_timer (self (snd (predict_video fuel cap w))) in
        time_det t' = time_det (pipe_timer (self w))
        /\ time_kpt t' = time_kpt (pipe_timer (self w))
        /\ time_action t' = time_action (pipe_timer (self w))).
Proof.
  split.
  - intros input w. cbv zeta. repeat split.
    + by apply (predict_image_stage_time Mot).
    + by apply (predict_image_stage_time Kpt).
    + by apply (predict_image_stage_time Action).
  - intros fuel cap w. cbv zeta. repeat split.
    + by apply (predict_video_stage_time Det).
    + by apply (predict_video_stage_time Kpt).
    + by apply (predict_video_stage_time Action).
Qed.

(** ** The store as a monoid action *)

Lemma Result_eq {A : Type} (r1 r2 : Result.t A) :
  Result.res_dict r1 = Result.res_dict r2 -> r1 = r2.
Proof. destruct r1, r2. simpl. by intros ->. Qed.

Lemma after_snoc {A : Type} (ops : list (gmap string (pyval A) * string)) op :
  Result.after (ops ++ [op]) = Result.apply_update (Result.after ops) op.
Proof. unfold Result.after. by rewrite fold_left_app. Qed.

(** X4: updates of one stage compose by merging: writing [r1] and then
    [r2] under a name leaves the store that one write of [r2 ∪ r1] (the
    keys of [r2] winning) leaves, for a stage key and for any other name
    (where each write raises and changes nothing); writing the same result
    twice is writing it once, and writing the empty dictionary changes
    nothing. *)
Theorem Result_updates_compose (A : Type)
    (ops : list (gmap string (pyval A) * string))
    (r1 r2 : gmap string (pyval A)) (name : string) :
  Result.after (ops ++ [(r1, name); (r2, name)])
    = Result.after (ops ++ [(r2 ∪ r1, name)])
  /\ Result.after (ops ++ [(r1, name); (r1, name)])
     = Result.after (ops ++ [(r1, name)])
  /\ Result.after (ops ++ [(∅, name)]) = Result.after ops.
Proof.
  assert (Hcomp : forall (r : Result.t A) (a b : gmap string (pyval A)),
             Result.apply_update (Result.apply_update r (a, name)) (b, name)
             = Result.apply_update r (b ∪ a, name)).
  { intros r a b. unfold Result.apply_update, Result.update. simpl.
    destruct (Result.res_dict r !! name) as [old|] eqn:E; simpl.
    - rewrite lookup_insert_eq. apply Result_eq. simpl.
      rewrite insert_insert_eq. unfold Result.dict_update.
      by rewrite (map_union_assoc b a old).
    - by rewrite E. }
  split; [|split].
  - change (ops ++ [(r1, name); (r2, name)])
      with (ops ++ [(r1, name)] ++ [(r2, name)]).
    rewrite app_assoc, !after_snoc. apply Hcomp.
  - change (ops ++ [(r1, name); (r1, name)])
      with (ops ++ [(r1, name)] ++ [(r1, name)]).
    rewrite app_assoc, !after_snoc, Hcomp. by rewrite (map_union_idemp r1).
  - rewrite after_snoc. unfold Result.apply_update, Result.update. simpl.
    destruct (Result.res_dict (Result.after ops) !! name) as [old|] eqn:E;
      [|done].
    apply Result_eq. simpl. unfold Result.dict_update.
    rewrite (map_empty_union old). by apply insert_id.
Qed.

(** ** Construction *)

(** X5: what input parsing makes of its arguments. An image argument gives
    image input (the files of [get_test_images]) with both flags false,
    whatever the video arguments are; without one, the input is video, and
    it is multi-camera exactly when [video_file] is a list or, with no
    [video_file], [camera_id] is a sequence, with one capture per element.
    An exception is the failure of [get_test_images] or the invalid-input
    error. *)
Theorem parse_input_modes (C : Collaborators)
    (image_file image_dir : option string) (video_file : option VideoFile)
    (camera_id : CameraId) :
  match _parse_input image_file image_dir video_file camera_id (false, false)
  with
  | inr (input, (is_video0, multi_camera0)) =>
      is_video0 = negb (image_given image_file image_dir)
      /\ multi_camera0
         = negb (image_given image_file image_dir)
           && bool_decide (is_Some (streams_named video_file camera_id))
      /\ match input with
         | InImages files =>
             image_given image_file image_dir = true
             /\ get_test_images image_dir image_file = Some files
         | InCapture _ =>
             image_given image_file image_dir = false
             /\ streams_named video_file camera_id = None
         | InCaptures caps =>
             image_given image_file image_dir = false
             /\ streams_named video_file camera_id = Some (length caps)
         end
  | inl e =>
      (image_given image_file image_dir = true
       /\ get_test_images image_dir image_file = None
       /\ e = ExternalError "get_test_images")
      \/ (image_given image_file image_dir = false
          /\ video_file = None /\ camera_id = CamInt (-1)
          /\ exists msg, e = ValueError msg)
  end.
Proof.
  unfold _parse_input, image_given.
  destruct (bool_decide (is_Some image_file) || bool_decide (is_Some image_dir))
    eqn:Himg.
  - destruct (get_test_images image_dir image_file); simpl; [done|].
    left. done.
  - destruct video_file as [[path|paths]|]; simpl.
    + done.
    + by rewrite length_map.
    + destruct camera_id as [id|ids]; simpl.
      * destruct (id =? -1) eqn:E; simpl; [|done].
        apply Z.eqb_eq in E. subst. right. repeat split. by eexists.
      * by rewrite length_map.
Qed.

(** X6: what the constructor of a predictor returns. In image mode it needs
    the ['DET'] section and nothing else (an ['ACTION'] section is ignored);
    in video mode it needs the ['MOT'] section and raises whenever the
    ['ACTION'] section is there. A predictor it returns has a fresh store
    and timer, a warm-up count of one, the detector (with the batch size of
    the section) or the tracker according to the mode, the attribute
    predictor exactly when the ['ATTR'] section is there, and never a
    keypoint predictor, keypoint collector or action predictor. *)
Theorem PipePredictor_init_outcome (C : Collaborators) (cfg0 : Cfg)
    (is_video0 multi_camera0 : bool) (output_dir0 : string) :
  match PipePredictor_init cfg0 is_video0 multi_camera0 output_dir0 with
  | inr p =>
      (if is_video0 then is_Some (MOT cfg0) /\ ACTION cfg0 = None
       else is_Some (DET cfg0))
      /\ is_video p = is_video0 /\ multi_camera p = multi_camera0
      /\ cfg p = cfg0 /\ output_dir p = output_dir0
      /\ warmup_frame p = 1
      /\ pipeline_res p = Result.init /\ pipe_timer p = PipeTimer_init
      /\ det_predictor p
         = (if is_video0 then None
            else (fun d => mkDetector (batch_size d)) <$> DET cfg0)
      /\ mot_predictor p = (if is_video0 then Some [] else None)
      /\ attr_predictor p = (if cfg_flag (ATTR cfg0) then Some tt else None)
      /\ kpt_predictor p = None /\ kpt_collector p = None
      /\ action_predictor p = None
  | inl e =>
      if is_video0 then
        (MOT cfg0 = None /\ e = KeyError "MOT")
        \/ (is_Some (MOT cfg0) /\ is_Some (ACTION cfg0)
            /\ e = NameError "KeyPointDetector")
      else DET cfg0 = None /\ e = KeyError "DET"
  end.
Proof.
  unfold PipePredictor_init, bind_exn, cfg_section, cfg_flag.
  destruct is_video0, (DET cfg0), (MOT cfg0), (ATTR cfg0), (ACTION cfg0);
    simpl; first [ by left | by (right; repeat split; try by eexists)
                 | by (repeat split; try by eexists) ].
Qed.

(** X7: the construction of a [Pipeline] builds one predictor per stream
    in multi-camera mode, each with its own fresh store and timer and both
    flags true, and a single predictor otherwise, with the [is_video] flag
    of the parsed input. *)
Theorem Pipeline_init_predictors (C : Collaborators) (cfg0 : Cfg)
    (image_file image_dir : option string) (video_file : option VideoFile)
    (camera_id : CameraId) (output_dir0 : string) :
  match Pipeline_init cfg0 image_file image_dir video_file camera_id
          output_dir0 with
  | inr pl =>
      match pl_predictor pl with
      | Many ps =>
          pl_multi_camera pl = true /\ pl_is_video pl = true
          /\ streams_named video_file camera_id = Some (length ps)
          /\ (exists caps, pl_input pl = InCaptures caps
                           /\ length caps = length ps)
          /\ Forall (fun p => pipeline_res p = Result.init
                              /\ pipe_timer p = PipeTimer_init
                              /\ multi_camera p = true /\ is_video p = true)
                    ps
      | One p =>
          pl_multi_camera pl = false
          /\ pl_is_video pl = negb (image_given image_file image_dir)
          /\ is_video p = pl_is_video pl /\ multi_camera p = false
          /\ pipeline_res p = Result.init /\ pipe_timer p = PipeTimer_init
      end
  | inl _ => True
  end.
Proof.
  unfold Pipeline_init.
  pose proof (parse_input_modes C image_file image_dir video_file camera_id)
    as Hp.
  destruct (_parse_input _ _ _ _ _) as [e|[input [v m]]]; simpl; [done|].
  destruct Hp as (Hv & Hm & Hin). destruct m.
  - destruct input as [files|cap|caps]; simpl; try done.
    destruct (build_predictors cfg0 output_dir0 caps) as [e|ps] eqn:E;
      simpl; [done|].
    destruct (build_predictors_fresh _ _ _ _ E) as [Hlen Hall].
    destruct Hin as [Himg Hs]. rewrite Himg in Hv. simpl in Hv.
    split; [done|]. split; [done|]. split; [by rewrite Hlen|].
    split; [by exists caps|exact Hall].
  - pose proof (PipePredictor_init_outcome C cfg0 v false output_dir0) as Ho.
    destruct (PipePredictor_init cfg0 v false output_dir0) as [e|p];
      simpl; [done|].
    destruct Ho as (_ & Hpv & Hpm & _ & _ & _ & Hres & Htm & _).
    by repeat split.
Qed.

(** ** Batch sizes and the counter of images *)

Section Counting.
Context {C : Collaborators}.

Lemma same_img_num_refl w : same_img_num w w.
Proof. by split. Qed.

Lemma same_img_num_trans w1 w2 w3 :
  same_img_num w1 w2 -> same_img_num w2 w3 -> same_img_num w1 w3.
Proof. unfold same_img_num. intros [? ?] [? ?]. split; congruence. Qed.

Ltac img_leaf :=
  let w := fresh "w" in
  intros w; unfold modify_self, emit, res_update; simpl;
  try match goal with
      | |- context [Result.update ?a ?b ?c] => destruct (Result.update a b c)
      end;
  simpl; first [apply same_img_num_refl | split; reflexivity
               | split; [|reflexivity];
                 match goal with
                 | |- context [set_module_time ?s] => by destruct s
                 end ].

Ltac img_pre :=
  idtac;
  match goal with
  | |- preserves _ total_time_start => unfold total_time_start, on_timer
  | |- preserves _ total_time_end => unfold total_time_end, on_timer
  | |- preserves _ (module_time_start _) => unfold module_time_start, on_timer
  | |- preserves _ (module_time_end _) => unfold module_time_end, on_timer
  end.

Ltac img_frame :=
  repeat first
    [ img_pre
    | preserve_step same_img_num_refl same_img_num_trans img_leaf ].

Lemma tick_img_num input i w w' det :
  predict_image_tick input i w = (inr tt, w') ->
  det_predictor (self w) = Some det ->
  img_num (pipe_timer (self w'))
  = img_num (pipe_timer (self w))
    + py_len (batch_file_of input (det_batch_size det) i)
  /\ det_predictor (self w') = Some det.
Proof.
  intros H Hdet. unfold predict_image_tick in H.
  inv_bind H. unfold predict_image_stages in Hm.
  do 2 inv_bind Hm.
  apply attribute_inv in Hm0. destruct Hm0 as [Hdet' ->].
  rewrite Hdet in Hdet'. injection Hdet' as <-.
  rewrite decode_batch_run in Hm1. injection Hm1 as <- <-.
  do 10 inv_bind Hm.
  unfold ret in Hm. injection Hm as <- <-.
  unfold img_num_add, on_timer, modify_self in Hm8. injection Hm8 as _ <-.
  unfold visualize_image in H.
  to_frame same_img_num ltac:(img_frame).
  destruct Hm0 as [A0 B0], Hm1 as [A1 B1], Hm2 as [A2 B2], Hm3 as [A3 B3],
    Hm4 as [A4 B4], Hm5 as [A5 B5], Hm6 as [A6 B6], Hm7 as [A7 B7],
    Hm9 as [A9 B9], H as [A10 B10].
  simpl in *. split.
  - rewrite A10, A9. simpl.
    rewrite A7, A6, A5, A4, A3, A2, A1, A0. f_equal.
    unfold py_len. by rewrite length_map.
  - rewrite B10, B9. simpl. by rewrite B7, B6, B5, B4, B3, B2, B1, B0.
Qed.

Lemma ticks_img_num input det l :
  forall w w',
    for_each l (predict_image_tick input) w = (inr tt, w') ->
    det_predictor (self w) = Some det ->
    img_num (pipe_timer (self w'))
    = img_num (pipe_timer (self w))
      + py_len (concat (map (batch_file_of input (det_batch_size det)) l)).
Proof.
  induction l as [|i l IH]; intros w w' H Hdet; simpl in H.
  - unfold ret in H. injection H as <-. simpl. unfold py_len. simpl. lia.
  - inv_bind H. destruct x.
    destruct (tick_img_num _ _ _ _ _ Hm Hdet) as [Hn Hdet'].
    rewrite (IH _ _ H Hdet'), Hn. simpl. unfold py_len.
    rewrite length_app. lia.
Qed.

Lemma code_files_spec (input : list string) (bs : Z) :
  0 < bs ->
  map (batch_file_of input bs)
      (py_range (Z.of_nat ((length input + Z.to_nat bs - 1) / Z.to_nat bs)))
  = spec_batches input (Z.to_nat bs).
Proof.
  intros Hbs. unfold py_range, spec_batches. rewrite Nat2Z.id.
  rewrite !map_map. apply map_ext. intros k.
  by rewrite batch_file_of_spec.
Qed.

Lemma ceil_div_nonpositive (len : nat) (bs : Z) :
  bs < 0 -> exists n, ceil_div (Z.of_nat len) bs = inr n /\ n <= 0.
Proof.
  intros Hbs. unfold ceil_div.
  destruct (bs =? 0) eqn:E; [apply Z.eqb_eq in E; lia|].
  eexists. split; [reflexivity|].
  assert (Hq : - Z.of_nat len / bs = Z.of_nat len / - bs).
  { rewrite <- (Z.div_opp_opp (Z.of_nat len) (- bs)) by lia.
    by rewrite Z.opp_involutive. }
  rewrite Hq.
  pose proof (Z.div_pos (Z.of_nat len) (- bs) ltac:(lia) ltac:(lia)). lia.
Qed.

End Counting.

(** X8: the batch sizes that are no sizes. With a detector whose batch size
    is zero [predict_image] raises [ZeroDivisionError] at once, for any
    input, the empty one included; with a negative batch size it returns
    at once, without a detector call, whatever the input holds; with any
    other batch size, an empty input returns at once too. In each case the
    predictor and the trace are as before. *)
Theorem predict_image_degenerate (C : Collaborators) (input : list string)
    (w : World) (det : Detector) :
  det_predictor (self w) = Some det ->
  (det_batch_size det = 0 ->
   predict_image input w = (inl ZeroDivisionError, w))
  /\ (det_batch_size det < 0 -> predict_image input w = (inr tt, w))
  /\ (det_batch_size det <> 0 -> predict_image [] w = (inr tt, w)).
Proof.
  intros Hdet. unfold predict_image, bind, attribute, lift, py_len.
  rewrite Hdet. split; [|split].
  - intros ->. reflexivity.
  - intros Hneg.
    destruct (ceil_div_nonpositive (length input) _ Hneg) as (n & -> & Hn).
    unfold py_range. replace (Z.to_nat n) with 0%nat by lia. reflexivity.
  - intros Hnz. unfold ceil_div.
    destruct (det_batch_size det =? 0) eqn:E; [apply Z.eqb_eq in E; lia|].
    simpl. reflexivity.
Qed.

Lemma predict_image_degenerate_witness :
  let w := sample_image_world (-2) false false in
  let input := ["a"; "b"; "c"] in
  (det_batch_size (mkDetector (-2)) = 0 ->
   predict_image (C:=sample) input w = (inl ZeroDivisionError, w))
  /\ (det_batch_size (mkDetector (-2)) < 0 ->
      predict_image (C:=sample) input w = (inr tt, w))
  /\ (det_batch_size (mkDetector (-2)) <> 0 ->
      predict_image (C:=sample) [] w = (inr tt, w)).
Proof.
  intros w input.
  apply (predict_image_degenerate sample input w (mkDetector (-2))).
  reflexivity.
Defined.

(** X9: when [predict_image] returns, the counter [img_num] has grown by
    the number of input images, the images of the warm-up batches
    included. *)
Theorem predict_image_counts_every_image (C : Collaborators)
    (input : list string) (bs : Z) (w w' : World) :
  0 < bs ->
  det_predictor (self w) = Some (mkDetector bs) ->
  predict_image input w = (inr tt, w') ->
  img_num (pipe_timer (self w'))
  = img_num (pipe_timer (self w)) + py_len input.
Proof.
  intros Hbs Hdet H. unfold predict_image in H. do 2 inv_bind H.
  apply attribute_inv in Hm. destruct Hm as [Hdet' ->].
  rewrite Hdet in Hdet'. injection Hdet' as <-. simpl in Hm0.
  unfold lift, py_len in Hm0. rewrite ceil_div_div_up in Hm0 by exact Hbs.
  injection Hm0 as <- <-.
  rewrite (ticks_img_num input (mkDetector bs) _ _ _ H Hdet). simpl.
  rewrite code_files_spec by exact Hbs.
  rewrite spec_batches_concat by lia. reflexivity.
Qed.

Lemma predict_image_counts_every_image_witness :
  let input := ["a"; "b"; "c"] in
  let w := sample_image_world 2 false false in
  let w' := snd (predict_image (C:=sample) input w) in
  img_num (pipe_timer (self w'))
  = img_num (pipe_timer (self w)) + py_len input.
Proof.
  intros input w w'.
  apply (predict_image_counts_every_image sample input 2 w w').
  - lia.
  - reflexivity.
  - assert (Hfst : fst (predict_image (C:=sample) input w) = inr tt)
      by (vm_compute; reflexivity).
    subst w'. destruct (predict_image (C:=sample) input w) as [r w0].
    simpl in Hfst. rewrite Hfst. reflexivity.
Defined.

(** ** Branches that cannot return *)

Section DeadEnds.
Context {C : Collaborators}.

Ltac flags_leaf' :=
  let w := fresh "w" in
  intros w; unfold on_timer, modify_self, emit, res_update; simpl;
  try match goal with
      | |- context [Result.update ?a ?b ?c] => destruct (Result.update a b c)
      end;
  simpl; apply (@same_flags_refl C) || (by repeat split).

Ltac flags' :=
  preserve_with (@same_flags_refl C) (@same_flags_trans C) flags_leaf'.

Lemma read_self_inv {X : Type} (f : PipePredictor -> X) w x w' :
  read_self f w = (inr x, w') -> x = f (self w) /\ w' = w.
Proof. unfold read_self. by intros [= <- <-]. Qed.

Lemma multi_camera_frame_never_returns frame frame_id w w' :
  multi_camera (self w) = true ->
  predict_video_frame frame frame_id w <> (inr tt, w').
Proof.
  intros Hmc H. unfold predict_video_frame in H.
  do 14 inv_bind H.
  apply read_self_inv in Hm12. destruct Hm12 as [-> ->].
  revert H. to_frame same_flags ltac:(flags'). intros H.
  assert (Hmc' : multi_camera (self w12) = true).
  { destruct Hm as (_&_&_&E0&_), Hm0 as (_&_&_&E1&_), Hm1 as (_&_&_&E2&_),
      Hm2 as (_&_&_&E3&_), Hm3 as (_&_&_&E4&_), Hm4 as (_&_&_&E5&_),
      Hm5 as (_&_&_&E6&_), Hm6 as (_&_&_&E7&_), Hm7 as (_&_&_&E8&_),
      Hm8 as (_&_&_&E9&_), Hm9 as (_&_&_&E10&_), Hm10 as (_&_&_&E11&_),
      Hm11 as (_&_&_&E12&_).
    congruence. }
  rewrite Hmc' in H. inv_bind H.
  unfold bind, lift in Hm12. vm_compute in Hm12. discriminate Hm12.
Qed.

Lemma res_update_inv (res : gmap string (pyval ndarray)) name w x w' :
  res_update res name w = (inr x, w') ->
  exists r', Result.update res name (pipeline_res (self w)) = inr r'
    /\ w' = mkWorld (set_pipeline_res r' (self w)) (clock w) (trace w).
Proof.
  unfold res_update.
  destruct (Result.update res name (pipeline_res (self w))) as [e|r'];
    [discriminate|].
  intros [= _ <-]. by exists r'.
Qed.

Lemma emit_inv e w x w' :
  emit e w = (inr x, w') ->
  w' = mkWorld (self w) (clock w + elapsed e) (trace w ++ [e]).
Proof. unfold emit. by intros [= _ <-]. Qed.

Lemma modify_self_inv f w x w' :
  modify_self f w = (inr x, w') ->
  w' = mkWorld (f (self w)) (clock w) (trace w).
Proof. unfold modify_self. by intros [= _ <-]. Qed.

Lemma action_stage_return crop w w' :
  action_stage crop w = (inr tt, w') ->
  action_calls (trace w') = action_calls (trace w)
  /\ exists buf,
       kpt_collector (self w) = Some buf
       /\ kpt_window_full (buf ++ [kpt_predict_image crop]) = false
       /\ kpt_collector (self w') = Some (buf ++ [kpt_predict_image crop]).
Proof.
  intros H. unfold action_stage in H. do 8 inv_bind H.
  apply attribute_inv in Hm. destruct Hm as [_ ->].
  apply emit_inv in Hm0. subst w1.
  apply res_update_inv in Hm1. destruct Hm1 as (r' & _ & ->).
  apply attribute_inv in Hm2. destruct Hm2 as [Hbuf ->]. simpl in Hbuf.
  apply emit_inv in Hm3. subst w4.
  apply modify_self_inv in Hm4. subst w5.
  apply attribute_inv in Hm5. destruct Hm5 as [Hbuf' ->]. simpl in Hbuf'.
  injection Hbuf' as <-.
  apply emit_inv in Hm6. subst w7.
  destruct (kpt_window_full (x2 ++ [kpt_predict_image crop])) eqn:Hfull.
  - exfalso. do 4 inv_bind H. unfold bind, lift in H. vm_compute in H.
    discriminate H.
  - unfold ret in H. injection H as <-. simpl. split.
    + unfold action_calls. rewrite !omap_app. simpl. by rewrite !app_nil_r.
    + by exists x2.
Qed.

End DeadEnds.

(** X10: in multi-camera mode no frame is ever processed to its end:
    [predict_video_frame] cannot return for a predictor whose
    [multi_camera] flag is set, since after its stages it asks the object
    for [get_valid_instance], which the class does not define. *)
Theorem multi_camera_frame_raises (C : Collaborators) (frame : ndarray)
    (frame_id : Z) (w : World) :
  multi_camera (self w) = true ->
  exists e, fst (predict_video_frame frame frame_id w) = inl e.
Proof.
  intros Hmc.
  destruct (predict_video_frame frame frame_id w) as [[e|[]] w'] eqn:E.
  - by exists e.
  - exfalso. by apply (multi_camera_frame_never_returns _ _ _ _ Hmc E).
Qed.

Lemma multi_camera_frame_raises_witness :
  exists e,
    fst (predict_video_frame (C:=sample) 7 0
           (mkWorld
              (mkPipePredictor false false true true
                 (video_cfg false false false) "output" 1 Result.init
                 PipeTimer_init None (Some []) None None None None)
              0 []))
    = inl e.
Proof.
  apply (multi_camera_frame_raises sample 7 0
           (mkWorld
              (mkPipePredictor false false true true
                 (video_cfg false false false) "output" 1 Result.init
                 PipeTimer_init None (Some []) None None None None)
              0 [])).
  reflexivity.
Defined.

(** X11: the keypoint and action branch of a frame returns only while the
    window of the collector is not full: when [action_stage] returns, the
    collector has the new keypoint result appended, its window is not
    full, and the action predictor was not called. *)
Theorem action_stage_returns_below_window (C : Collaborators)
    (crop_input : list ndarray) (w w' : World) :
  action_stage crop_input w = (inr tt, w') ->
  action_calls (trace w') = action_calls (trace w)
  /\ exists buf,
       kpt_collector (self w) = Some buf
       /\ kpt_window_full (buf ++ [kpt_predict_image crop_input]) = false
       /\ kpt_collector (self w')
          = Some (buf ++ [kpt_predict_image crop_input]).
Proof. apply action_stage_return. Qed.

Lemma action_stage_returns_below_window_witness :
  let w' := snd (action_stage (C:=sample) [0] action_world) in
  action_calls (trace w') = action_calls (trace action_world)
  /\ exists buf,
       kpt_collector (self action_world) = Some buf
       /\ kpt_window_full (Collaborators:=sample)
            (buf ++ [kpt_predict_image (Collaborators:=sample) [0]]) = false
       /\ kpt_collector (self w')
          = Some (buf ++ [kpt_predict_image (Collaborators:=sample) [0]]).
Proof.
  intros w'.
  apply (action_stage_returns_below_window sample [0] action_world w').
  assert (Hfst : fst (action_stage (C:=sample) [0] action_world) = inr tt)
    by (vm_compute; reflexivity).
  subst w'. destruct (action_stage (C:=sample) [0] action_world) as [r w0].
  simpl in Hfst. rewrite Hfst. reflexivity.
Defined.

(** ** Rendering without the attribute stage *)

Section Rendering.
Context {C : Collaborators}.

Lemma fails_bind_l {X Y : Type} (m : M X) (k : X -> M Y) P w :
  fails m P w -> fails (bind m k) P w.
Proof.
  intros (e & w' & Hm & HP). exists e, w'. split; [|exact HP].
  unfold bind. by rewrite Hm.
Qed.

Lemma fails_bind_r {X Y : Type} (m : M X) (k : X -> M Y) P w :
  wp m (fun x w1 => fails (k x) P w1) w -> fails (bind m k) P w.
Proof.
  intros (x & w1 & Hm & e & w' & Hk & HP). exists e, w'.
  split; [|exact HP]. unfold bind. by rewrite Hm.
Qed.

Lemma fails_result {X : Type} (m : M X) P w :
  fails m P w -> exists e, fst (m w) = inl e /\ P e (snd (m w)).
Proof. intros (e & w' & Hm & HP). exists e. rewrite Hm. by split. Qed.

Lemma saved_files_app (t1 t2 : list (event ndarray)) :
  saved_files (t1 ++ t2) = saved_files t1 ++ saved_files t2.
Proof. apply omap_app. Qed.

Lemma visualize_image_fails im_file im_files im images w a :
  Result.get "attr" (pipeline_res (self w)) = Some a ->
  a !! "output" = None ->
  fails (visualize_image (im_file :: im_files) (im :: images))
    (fun e w' =>
       saved_files (trace w') = saved_files (trace w)
       /\ det_calls (trace w') = det_calls (trace w)
       /\ ((forall d, Result.get "det" (pipeline_res (self w)) = Some d ->
                      is_Some (d !! "boxes_num") /\ is_Some (d !! "boxes")) ->
           e = KeyError "output")) w.
Proof.
  intros Hattr Ha. unfold visualize_image, fails, bind, read_self.
  simpl. rewrite Hattr. unfold bind, subscript, lift. rewrite Ha.
  destruct (Result.get "det" (pipeline_res (self w))) as [d|] eqn:Hd.
  - destruct (d !! "boxes_num") as [bn|] eqn:Hbn;
      [destruct (d !! "boxes") as [bx|] eqn:Hbx|].
    + simpl. eexists _, _. split; [reflexivity|]. simpl.
      rewrite saved_files_app, det_calls_app. simpl. rewrite !app_nil_r.
      by repeat split.
    + eexists _, _. split; [reflexivity|]. repeat split.
      intros H. destruct (H d eq_refl) as [_ [? ?]]. congruence.
    + eexists _, _. split; [reflexivity|]. repeat split.
      intros H. destruct (H d eq_refl) as [[? ?] _]. congruence.
  - eexists _, _. split; [reflexivity|]. by repeat split.
Qed.

Lemma clock_after_app (e1 e2 : list (event ndarray)) c :
  clock_after (e1 ++ e2) c = clock_after e2 (clock_after e1 c).
Proof. unfold clock_after. apply fold_left_app. Qed.

Lemma stages_without_attr (input : list string) (i : Z) (w : World)
    (det : Detector) :
  det_predictor (self w) = Some det ->
  with_attr (self w) = false ->
  store_ok (pipeline_res (self w)) ->
  wp (predict_image_stages input i)
    (fun out w' =>
       out = (batch_file_of input (det_batch_size det) i,
              map decode_image (batch_file_of input (det_batch_size det) i))
       /\ det_tick_post (batch_file_of input (det_batch_size det) i) w w')
    w.
Proof.
  intros Hdet Hattr Hok.
  unfold predict_image_stages, past_warmup.
  fold (batch_file_of input (det_batch_size det) i).
  destruct (warmup_frame (self w) <? i) eqn:Ht; unfold_timer;
    repeat first
      [ wp_step
      | progress (chase; rewrite ?Ht, ?Hattr; simpl) ].
  all: split; [reflexivity|].
  all: unfold det_tick_post, batch_events, same_flags, batch_file_of;
    cbv zeta; chase; rewrite ?clock_after_app; simpl;
    unfold py_len; rewrite ?length_map.
  all: repeat split; try reflexivity; try lia.
  all: by rewrite <- app_assoc.
Qed.

Lemma batch_file_of_first (input : list string) (bs : Z) :
  0 < bs -> batch_file_of input bs 0 = take (Z.to_nat bs) input.
Proof.
  intros Hbs.
  change (batch_file_of input bs 0)
    with (batch_file_of input bs (Z.of_nat 0)).
  rewrite (batch_file_of_spec input bs 0 Hbs). simpl.
  rewrite Nat.add_0_r, Nat.sub_0_r, drop_0.
  destruct (Nat.le_gt_cases (Z.to_nat bs) (length input)) as [Hle|Hgt].
  - by rewrite Nat.min_l.
  - rewrite Nat.min_r by lia. by rewrite !firstn_all2 by lia.
Qed.

Lemma fails_mono {X : Type} (m : M X) (P P' : exn -> World -> Prop) w :
  fails m P w -> (forall e w', P e w' -> P' e w') -> fails m P' w.
Proof.
  intros (e & w' & Hm & HP) H. exists e, w'. split; [done|by apply H].
Qed.

Lemma saved_files_decode (l : list string) :
  saved_files (map (@EvDecode ndarray) l) = [].
Proof. induction l as [|f l IH]; [done|exact IH]. Qed.

Lemma tick_fails_rendering (input : list string) (i : Z) (w : World)
    (det : Detector) :
  det_predictor (self w) = Some det ->
  with_attr (self w) = false ->
  visual (cfg (self w)) = true ->
  store_ok (pipeline_res (self w)) ->
  (Result.get "attr" (pipeline_res (self w)) ≫= (.!! "output")) = None ->
  batch_file_of input (det_batch_size det) i <> [] ->
  let batch_file := batch_file_of input (det_batch_size det) i in
  let batch_input := map decode_image batch_file in
  fails (predict_image_tick input i)
    (fun e w' =>
       saved_files (trace w') = saved_files (trace w)
       /\ det_calls (trace w') = det_calls (trace w) ++ [batch_input]
       /\ (is_Some (det_predict_image batch_input !! "boxes_num") ->
           is_Some (det_predict_image batch_input !! "boxes") ->
           e = KeyError "output")) w.
Proof.
  intros Hdet Hattr Hvis Hok Hout Hne bf bi. subst bi bf.
  unfold predict_image_tick. apply fails_bind_r.
  eapply wp_mono; [apply (stages_without_attr input i w det); assumption|].
  remember (batch_file_of input (det_batch_size det) i) as bf eqn:Hbf.
  intros out w1 (-> & Hres & Htr & Hclock & Hfl & Hd & _). cbv beta.
  apply fails_bind_r, wp_read_self.
  destruct Hfl as (_&_&_&_&Hcfg&_). rewrite Hcfg, Hvis. simpl.
  destruct bf as [|f fs]; [done|]. simpl map.
  destruct (proj2 (Hok "attr") ltac:(solve_key)) as [a Ha].
  rewrite get_lookup, Ha in Hout. simpl in Hout.
  eapply fails_mono.
  { apply (visualize_image_fails f fs _ _ w1 a); [|exact Hout].
    rewrite Hres, get_store_put_ne by done. by rewrite get_lookup. }
  intros e w' (Hsaved & Hcalls & He). cbv beta.
  rewrite Hsaved, Hcalls, Htr. unfold batch_events.
  rewrite !saved_files_app, !det_calls_app, saved_files_decode,
    det_calls_decode. simpl. rewrite !app_nil_r.
  split; [done|]. split; [done|].
  intros Hbn Hbx. apply He. intros d.
  rewrite Hres, get_store_put_eq. intros [= <-].
  split; apply lookup_union_is_Some; by left.
Qed.

Lemma first_batch_nonempty (input : list string) (bs : Z) :
  0 < bs -> input <> [] -> batch_file_of input bs 0 <> [].
Proof.
  intros Hbs Hin. rewrite batch_file_of_first by exact Hbs.
  destruct input as [|x l]; [done|].
  destruct (Z.to_nat bs) eqn:E; [lia|done].
Qed.

Lemma py_range_first (n : Z) :
  0 < n -> exists l, py_range n = 0 :: l.
Proof.
  intros Hn. unfold py_range.
  destruct (Z.to_nat n) eqn:E; [lia|]. simpl. by eexists.
Qed.

Lemma ceil_div_positive (len : nat) (bs : Z) :
  0 < bs -> (0 < len)%nat ->
  exists n, ceil_div (Z.of_nat len) bs = inr n /\ 0 < n.
Proof.
  intros Hbs Hlen. rewrite ceil_div_div_up by exact Hbs.
  eexists. split; [reflexivity|].
  assert (1 <= (len + Z.to_nat bs - 1) / Z.to_nat bs)%nat; [|lia].
  apply Nat.div_le_lower_bound; lia.
Qed.

Lemma writer_writes_snoc (tr : list (event ndarray)) e :
  e <> EvWriterWrite -> writer_writes (tr ++ [e]) = writer_writes tr.
Proof.
  intros He. unfold writer_writes. rewrite List.filter_app, length_app.
  destruct e; simpl; try lia. done.
Qed.

Lemma visualize_video_fails image frame_id w a :
  Result.get "attr" (pipeline_res (self w)) = Some a ->
  a !! "output" = None ->
  fails (visualize_video image frame_id)
    (fun e w' =>
       writer_writes (trace w') = writer_writes (trace w)
       /\ mot_calls (trace w') = mot_calls (trace w)
       /\ ((forall d, Result.get "mot" (pipeline_res (self w)) = Some d ->
                      is_Some (d !! "boxes")) ->
           is_Some (Result.get "mot" (pipeline_res (self w))) ->
           e = KeyError "output")) w.
Proof.
  intros Hattr Ha. unfold visualize_video, fails, bind, read_self.
  simpl. rewrite Hattr.
  destruct (Result.get "mot" (pipeline_res (self w))) as [d|] eqn:Hd.
  - unfold bind, subscript, lift. rewrite Ha.
    destruct (d !! "boxes") as [bx|] eqn:Hbx.
    + simpl. eexists _, _. split; [reflexivity|]. simpl.
      rewrite writer_writes_snoc by done. rewrite mot_calls_app. simpl.
      rewrite app_nil_r. by repeat split.
    + eexists _, _. split; [reflexivity|]. repeat split.
      intros H _. destruct (H d eq_refl) as [? ?]. congruence.
  - eexists _, _. split; [reflexivity|]. repeat split.
    intros _ [? ?]. congruence.
Qed.

Lemma frame_fails_rendering frame frame_id w seen :
  mot_predictor (self w) = Some seen ->
  with_attr (self w) = false ->
  with_action (self w) = false ->
  multi_camera (self w) = false ->
  visual (cfg (self w)) = true ->
  store_ok (pipeline_res (self w)) ->
  (Result.get "attr" (pipeline_res (self w)) ≫= (.!! "output")) = None ->
  fails (predict_video_frame frame frame_id)
    (fun e w' =>
       writer_writes (trace w') = writer_writes (trace w)
       /\ mot_calls (trace w') = mot_calls (trace w) ++ [frame]
       /\ (is_Some (parse_mot_res (mot_predict_image seen [frame]) !! "boxes")
           -> e = KeyError "output")) w.
Proof.
  intros Hmot Hattr Hact Hmc Hvis Hok Hout.
  destruct (proj2 (Hok "attr") ltac:(solve_key)) as [a Ha].
  rewrite get_lookup, Ha in Hout. simpl in Hout.
  unfold predict_video_frame, past_warmup.
  destruct (warmup_frame (self w) <? frame_id) eqn:Ht; unfold_timer;
    repeat first
      [ wp_step
      | lazymatch goal with
        | |- fails (bind (visualize_video _ _) _) _ _ => fail
        | |- fails (bind _ _) _ _ => apply fails_bind_r
        end
      | progress (chase; rewrite ?Ht, ?Hattr, ?Hact, ?Hmc, ?Hvis; simpl) ].
  all: apply fails_bind_l; eapply fails_mono;
    [ apply (visualize_video_fails _ _ _ a); [|exact Hout];
      chase; rewrite get_store_put_ne by done; by rewrite get_lookup
    | intros e w'' (Hw & Hm & He); cbv beta; rewrite Hw, Hm; chase;
      rewrite !mot_calls_app, writer_writes_snoc by done;
      split; [done|]; split; [simpl; by rewrite ?app_nil_r|];
      intros Hbx; apply He;
      [ intros d; chase; rewrite get_store_put_eq; intros [= <-];
        apply lookup_union_is_Some; by left
      | chase; rewrite get_store_put_eq; by eexists ] ].
Qed.

Lemma predict_video_fails_rendering fuel cap frame w seen :
  cap_frames cap (cap_pos cap) = Some frame ->
  (0 < fuel)%nat ->
  mot_predictor (self w) = Some seen ->
  with_attr (self w) = false ->
  with_action (self w) = false ->
  multi_camera (self w) = false ->
  visual (cfg (self w)) = true ->
  store_ok (pipeline_res (self w)) ->
  (Result.get "attr" (pipeline_res (self w)) ≫= (.!! "output")) = None ->
  fails (predict_video fuel cap)
    (fun e w' =>
       writer_writes (trace w') = writer_writes (trace w)
       /\ mot_calls (trace w') = mot_calls (trace w) ++ [frame]
       /\ (is_Some (parse_mot_res (mot_predict_image seen [frame]) !! "boxes")
           -> e = KeyError "output")) w.
Proof.
  intros Hcap Hfuel Hmot Hattr Hact Hmc Hvis Hok Hout.
  destruct fuel as [|fuel]; [lia|].
  unfold predict_video. apply fails_bind_r. wp_step.
  apply fails_bind_r. wp_step. apply fails_bind_r. wp_step.
  apply fails_bind_l.
  simpl video_loop. unfold capture_read. simpl fst. rewrite Hcap.
  apply fails_bind_r. wp_step. apply fails_bind_l.
  eapply fails_mono.
  { apply (frame_fails_rendering frame 0 _ seen); by chase. }
  intros e w'' (Hw & Hm & He). cbv beta. rewrite Hw, Hm. chase.
  rewrite !mot_calls_app, !writer_writes_snoc by done. simpl.
  rewrite !app_nil_r. by repeat split.
Qed.

End Rendering.

(** ** Detection alone *)

Section DetectionOnly.
Context {C : Collaborators}.

Lemma tick_detection_only (input : list string) (i : Z) (w : World)
    (det : Detector) :
  det_predictor (self w) = Some det ->
  with_attr (self w) = false ->
  visual (cfg (self w)) = false ->
  store_ok (pipeline_res (self w)) ->
  wp (predict_image_tick input i)
    (fun _ w' =>
       det_tick_post (batch_file_of input (det_batch_size det) i) w w') w.
Proof.
  intros Hdet Hattr Hvis Hok. unfold predict_image_tick. apply wp_bind.
  eapply wp_mono; [apply (stages_without_attr input i w det); assumption|].
  intros out w1 (-> & Hpost). cbv beta.
  apply wp_bind, wp_read_self.
  pose proof Hpost as (_ & _ & _ & (_&_&_&_&Hcfg&_) & _).
  rewrite Hcfg, Hvis. simpl. apply wp_ret. exact Hpost.
Qed.

Lemma ticks_detection_only (input : list string) (det : Detector) l :
  forall w,
    det_predictor (self w) = Some det ->
    with_attr (self w) = false ->
    visual (cfg (self w)) = false ->
    store_ok (pipeline_res (self w)) ->
    wp (for_each l (predict_image_tick input))
      (fun _ w' =>
         let batches := map (batch_file_of input (det_batch_size det)) l in
         trace w' = trace w ++ concat (map batch_events batches)
         /\ pipeline_res (self w')
            = det_results_merged batches (pipeline_res (self w))
         /\ img_num (pipe_timer (self w'))
            = img_num (pipe_timer (self w)) + py_len (concat batches)) w.
Proof.
  induction l as [|i l IH]; intros w Hdet Hattr Hvis Hok; simpl.
  - apply wp_ret. rewrite app_nil_r. unfold py_len. simpl.
    repeat split; try done; lia.
  - apply wp_bind. eapply wp_mono.
    { apply (tick_detection_only input i w det); assumption. }
    intros [] w1 (Hres & Htr & Hclock & Hfl & Hd & Hn). cbv beta.
    destruct Hfl as (Hwa&_&_&_&Hcfg&_).
    eapply wp_mono.
    { apply IH.
      - by rewrite Hd.
      - by rewrite Hwa.
      - by rewrite Hcfg.
      - rewrite Hres. apply store_ok_put_ok; [exact Hok|solve_key]. }
    intros [] w2 (Htr2 & Hres2 & Hn2). cbv beta zeta.
    rewrite Htr2, Hres2, Hn2, Htr, Hres, Hn. unfold py_len.
    rewrite length_app, <- app_assoc. repeat split; try done; lia.
Qed.

End DetectionOnly.

(** X14: detection alone always goes through. An image predictor with the
    attribute stage and [visual] off and a positive batch size:
    [predict_image] returns for every input; what it calls is, batch by
    batch, the decoding of the files of the batch and then the detector on
    the decoded batch, and nothing else; the store has the results of the
    batches merged into ['det'] in their order; and the counter has grown
    by the number of images. *)
Theorem predict_image_detection_only (C : Collaborators)
    (input : list string) (w : World) (det : Detector) :
  det_predictor (self w) = Some det ->
  0 < det_batch_size det ->
  with_attr (self w) = false ->
  visual (cfg (self w)) = false ->
  store_ok (pipeline_res (self w)) ->
  let batches := spec_batches input (Z.to_nat (det_batch_size det)) in
  let rw := predict_image input w in
  fst rw = inr tt
  /\ trace (snd rw) = trace w ++ concat (map batch_events batches)
  /\ pipeline_res (self (snd rw))
     = det_results_merged batches (pipeline_res (self w))
  /\ img_num (pipe_timer (self (snd rw)))
     = img_num (pipe_timer (self w)) + py_len input.
Proof.
  intros Hdet Hbs Hattr Hvis Hok batches rw.
  assert (Hwp : wp (predict_image input)
            (fun _ w' =>
               trace w' = trace w ++ concat (map batch_events batches)
               /\ pipeline_res (self w')
                  = det_results_merged batches (pipeline_res (self w))
               /\ img_num (pipe_timer (self w'))
                  = img_num (pipe_timer (self w)) + py_len input) w).
  { unfold predict_image. apply wp_bind.
    eapply wp_attribute; [exact Hdet|].
    apply wp_bind. eexists _, w. split.
    { unfold lift, py_len. by rewrite ceil_div_div_up by exact Hbs. }
    eapply wp_mono.
    { apply (ticks_detection_only input det); assumption. }
    intros [] w' (Htr & Hres & Hn). cbv beta zeta in *.
    rewrite code_files_spec in Htr, Hres, Hn by exact Hbs.
    rewrite spec_batches_concat in Hn by lia. by repeat split. }
  destruct (wp_result _ _ _ Hwp) as ([] & Hres & H). by split.
Qed.

Lemma predict_image_detection_only_witness :
  let w := sample_image_world 2 false false in
  let input := ["a.jpg"; "b.jpg"; "c.jpg"] in
  let batches := spec_batches input (Z.to_nat 2) in
  let rw := predict_image (C:=sample) input w in
  fst rw = inr tt
  /\ trace (snd rw)
     = trace w ++ concat (map (batch_events (C:=sample)) batches)
  /\ pipeline_res (self (snd rw))
     = det_results_merged (C:=sample) batches (pipeline_res (self w))
  /\ img_num (pipe_timer (self (snd rw)))
     = img_num (pipe_timer (self w)) + py_len input.
Proof.
  intros w input.
  apply (predict_image_detection_only sample input w (mkDetector 2)).
  - reflexivity.
  - simpl. lia.
  - reflexivity.
  - reflexivity.
  - apply store_ok_init.
Defined.

(** X12: rendering needs the attribute stage. An image predictor with
    [visual] on and the attribute stage off, whose store has no ['output']
    under ['attr'] (as out of the constructor), on a non-empty input and a
    positive batch size: [predict_image] raises in its first round, after
    one detector call on the first [batch_size] images, and no image is
    saved; when the detector's result has ['boxes_num'] and ['boxes'], the
    exception is [KeyError('output')]. *)
Theorem predict_image_rendering_needs_attr (C : Collaborators)
    (input : list string) (w : World) (det : Detector) :
  det_predictor (self w) = Some det ->
  0 < det_batch_size det ->
  input <> [] ->
  with_attr (self w) = false ->
  visual (cfg (self w)) = true ->
  store_ok (pipeline_res (self w)) ->
  (Result.get "attr" (pipeline_res (self w)) ≫= (.!! "output")) = None ->
  let first := map decode_image (take (Z.to_nat (det_batch_size det)) input) in
  exists e,
    fst (predict_image input w) = inl e
    /\ saved_files (trace (snd (predict_image input w)))
       = saved_files (trace w)
    /\ det_calls (trace (snd (predict_image input w)))
       = det_calls (trace w) ++ [first]
    /\ (is_Some (det_predict_image first !! "boxes_num") ->
        is_Some (det_predict_image first !! "boxes") ->
        e = KeyError "output").
Proof.
  intros Hdet Hbs Hin Hattr Hvis Hok Hout first. subst first.
  rewrite <- batch_file_of_first by exact Hbs.
  set (first := map decode_image (batch_file_of input (det_batch_size det) 0)).
  assert (Hf : fails (predict_image input)
            (fun e w' =>
               saved_files (trace w') = saved_files (trace w)
               /\ det_calls (trace w') = det_calls (trace w) ++ [first]
               /\ (is_Some (det_predict_image first !! "boxes_num") ->
                   is_Some (det_predict_image first !! "boxes") ->
                   e = KeyError "output")) w);
    [|destruct (fails_result _ _ _ Hf) as (e & He & H); by exists e].
  unfold predict_image.
  apply fails_bind_r. eapply wp_attribute; [exact Hdet|].
  destruct (ceil_div_positive (length input) _ Hbs) as (n & Hn & Hpos).
  { destruct input; [done|simpl; lia]. }
  apply fails_bind_r. exists n, w. split; [unfold lift, py_len; by rewrite Hn|].
  destruct (py_range_first n Hpos) as [l ->]. simpl for_each.
  apply fails_bind_l.
  apply (tick_fails_rendering input 0 w det); try assumption.
  by apply first_batch_nonempty.
Qed.

Lemma predict_image_rendering_needs_attr_witness :
  let w := sample_image_world 2 false true in
  let input := ["a.jpg"; "b.jpg"; "c.jpg"] in
  let first :=
    map (decode_image (Collaborators:=sample)) (take (Z.to_nat 2) input) in
  exists e,
    fst (predict_image (C:=sample) input w) = inl e
    /\ saved_files (trace (snd (predict_image (C:=sample) input w)))
       = saved_files (trace w)
    /\ det_calls (trace (snd (predict_image (C:=sample) input w)))
       = det_calls (trace w) ++ [first]
    /\ (is_Some (det_predict_image (Collaborators:=sample) first
                   !! "boxes_num") ->
        is_Some (det_predict_image (Collaborators:=sample) first !! "boxes") ->
        e = KeyError "output").
Proof.
  intros w input.
  apply (predict_image_rendering_needs_attr sample input w (mkDetector 2)).
  - reflexivity.
  - simpl. lia.
  - discriminate.
  - reflexivity.
  - reflexivity.
  - apply store_ok_init.
  - reflexivity.
Defined.

(** X13: in video mode too. A video predictor with [visual] on, the
    attribute and action stages off and a single camera, whose store has
    no ['output'] under ['attr'], on a source whose first read yields a
    frame: [predict_video] raises on that frame, after the tracker has
    seen it, and no frame is handed to the writer; when the parsed
    tracking result has ['boxes'], the exception is
    [KeyError('output')]. *)
Theorem predict_video_rendering_needs_attr (C : Collaborators)
    (fuel : nat) (cap : capture ndarray) (frame : ndarray) (w : World)
    (seen : list ndarray) :
  cap_frames cap (cap_pos cap) = Some frame ->
  (0 < fuel)%nat ->
  mot_predictor (self w) = Some seen ->
  with_attr (self w) = false ->
  with_action (self w) = false ->
  multi_camera (self w) = false ->
  visual (cfg (self w)) = true ->
  store_ok (pipeline_res (self w)) ->
  (Result.get "attr" (pipeline_res (self w)) ≫= (.!! "output")) = None ->
  exists e,
    fst (predict_video fuel cap w) = inl e
    /\ writer_writes (trace (snd (predict_video fuel cap w)))
       = writer_writes (trace w)
    /\ mot_calls (trace (snd (predict_video fuel cap w)))
       = mot_calls (trace w) ++ [frame]
    /\ (is_Some (parse_mot_res (mot_predict_image seen [frame]) !! "boxes")
        -> e = KeyError "output").
Proof.
  intros Hcap Hfuel Hmot Hattr Hact Hmc Hvis Hok Hout.
  destruct (fails_result _ _ _
              (predict_video_fails_rendering fuel cap frame w seen Hcap
                 Hfuel Hmot Hattr Hact Hmc Hvis Hok Hout))
    as (e & He & H).
  by exists e.
Qed.

Lemma predict_video_rendering_needs_attr_witness :
  let w := sample_video_world false true in
  let cap := frames_then_end 2 in
  exists e,
    fst (predict_video (C:=sample) 5 cap w) = inl e
    /\ writer_writes (trace (snd (predict_video (C:=sample) 5 cap w)))
       = writer_writes (trace w)
    /\ mot_calls (trace (snd (predict_video (C:=sample) 5 cap w)))
       = mot_calls (trace w) ++ [0]
    /\ (is_Some (parse_mot_res (Collaborators:=sample)
                   (mot_predict_image (Collaborators:=sample) [] [0])
                   !! "boxes")
        -> e = KeyError "output").
Proof.
  intros w cap.
  apply (predict_video_rendering_needs_attr sample 5 cap 0 w []).
  - reflexivity.
  - lia.
  - reflexivity.
  - reflexivity.
  - reflexivity.
  - reflexivity.
  - reflexivity.
  - apply store_ok_init.
  - reflexivity.
Defined.

(** ** The counter of frames *)

Section FrameCount.
Context {C : Collaborators}.

Lemma frames_past_warmup_cons warmup frame_id n :
  frames_past_warmup warmup frame_id (S n)
  = (if warmup <? frame_id then 1 else 0)
    + frames_past_warmup warmup (frame_id + 1) n.
Proof.
  unfold frames_past_warmup. destruct (Z.ltb_spec warmup frame_id); lia.
Qed.

Lemma video_frame_counts frame frame_id w :
  video_ready w ->
  wp (predict_video_frame frame frame_id)
    (fun _ w' =>
       video_ready w'
       /\ warmup_frame (self w') = warmup_frame (self w)
       /\ img_num (pipe_timer (self w'))
          = img_num (pipe_timer (self w))
            + (if warmup_frame (self w) <? frame_id then 1 else 0)) w.
Proof.
  intros ([seen Hmot] & Hact & Hmc & Hvis & Hattr & Hok).
  unfold predict_video_frame, past_warmup.
  destruct (warmup_frame (self w) <? frame_id) eqn:Ht;
    destruct (with_attr (self w)) eqn:Hwa;
    try (destruct (Hattr eq_refl) as [[] Hap]);
    unfold_timer;
    repeat first
      [ wp_step
      | progress (chase; rewrite ?Ht, ?Hwa, ?Hact, ?Hmc, ?Hvis; simpl) ].
  all: split.
  all: try (unfold video_ready; chase; rewrite ?Hact, ?Hmc, ?Hvis;
      repeat split; try done; try (by eexists);
      try (intros _; by eexists);
      try (repeat (apply store_ok_put_ok; [|solve_key]); assumption)).
  all: try (rewrite Hwa; discriminate).
  all: try (intros _; rewrite Hap; by eexists).
  all: chase; simpl; lia.
Qed.

Lemma video_loop_counts m :
  forall fuel f pos frame_id w,
    (m < fuel)%nat -> f (pos + m)%nat = None -> video_ready w ->
    wp (video_loop fuel (mkCapture f pos) frame_id)
      (fun left w' =>
         left = true
         /\ img_num (pipe_timer (self w'))
            = img_num (pipe_timer (self w))
              + frames_past_warmup (warmup_frame (self w)) frame_id
                  (length (frames_before_failure f pos m))) w.
Proof.
  assert (Hstop : forall fuel f pos frame_id w,
             (0 < fuel)%nat -> f pos = None ->
             wp (video_loop fuel (mkCapture f pos) frame_id)
               (fun left w' => left = true /\ self w' = self w) w).
  { intros [|fuel] f pos frame_id w Hfuel Hf; [lia|].
    simpl. rewrite Hf. simpl. repeat wp_step. by split. }
  induction m as [|m IH]; intros fuel f pos frame_id w Hfuel Hf Hw.
  - rewrite Nat.add_0_r in Hf.
    eapply wp_mono; [apply Hstop; [lia|exact Hf]|].
    intros left w' (-> & ->). split; [done|]. simpl.
    unfold frames_past_warmup. simpl. lia.
  - simpl frames_before_failure. destruct (f pos) as [frame|] eqn:Hpos.
    + destruct fuel as [|fuel]; [lia|]. simpl video_loop. rewrite Hpos.
      simpl. wp_step. wp_step. wp_step.
      eapply wp_mono.
      { apply video_frame_counts. unfold video_ready in *. by chase. }
      intros [] w1 (Hw1 & Hwarm & Hn). cbv beta.
      eapply wp_mono.
      { apply (IH fuel f (S pos) (frame_id + 1) w1); [lia| |exact Hw1].
        rewrite <- Hf. f_equal. lia. }
      intros left w2 (-> & Hn2). split; [done|].
      rewrite Hn2, Hn, Hwarm. chase.
      rewrite frames_past_warmup_cons. lia.
    + eapply wp_mono; [apply Hstop; [lia|exact Hpos]|].
      intros left w' (-> & ->). split; [done|]. simpl.
      unfold frames_past_warmup. simpl. lia.
Qed.

End FrameCount.

(** X15: a video predictor out of its constructor (single camera, nothing
    rendered) on a source whose read fails at some point, with fuel to get
    there: [predict_video] leaves its loop, and the counter [img_num] is
    the number of frames read less the first two, which are the warm-up
    (zero for fewer than two frames). *)
Theorem predict_video_counts_past_warmup (C : Collaborators)
    (cfg0 : Cfg) (output_dir0 : string) (p : PipePredictor)
    (f : nat -> option ndarray) (pos m fuel : nat) (clock0 : Z)
    (trace0 : list (event ndarray)) :
  PipePredictor_init cfg0 true false output_dir0 = inr p ->
  visual cfg0 = false ->
  f (pos + m)%nat = None ->
  (m < fuel)%nat ->
  let frames := frames_before_failure f pos m in
  let rw := predict_video fuel (mkCapture f pos) (mkWorld p clock0 trace0) in
  fst rw = inr true
  /\ img_num (pipe_timer (self (snd rw)))
     = Z.max 0 (Z.of_nat (length frames) - 2).
Proof.
  intros Hinit Hvis Hf Hfuel frames rw.
  assert (Hw : video_ready (mkWorld p clock0 trace0))
    by (eapply init_video_ready; eassumption).
  pose proof (PipePredictor_init_outcome C cfg0 true false output_dir0)
    as Hp.
  rewrite Hinit in Hp.
  destruct Hp as (_ & _ & _ & _ & _ & Hwarm & _ & Htimer & _).
  assert (Hwp : wp (predict_video fuel (mkCapture f pos))
            (fun left w' =>
               left = true
               /\ img_num (pipe_timer (self w'))
                  = Z.max 0 (Z.of_nat (length frames) - 2))
            (mkWorld p clock0 trace0)).
  { unfold predict_video. do 7 wp_step.
    eapply wp_mono.
    { apply (video_loop_counts m fuel f pos 0); [exact Hfuel|exact Hf|].
      unfold video_ready in *. by chase. }
    intros left w1 (-> & Hn). cbv beta.
    repeat wp_step. split; [done|]. chase. rewrite Hn. chase.
    rewrite Hwarm, Htimer. unfold frames_past_warmup. fold frames.
    simpl. lia. }
  destruct (wp_result _ _ _ Hwp) as (left & Hres & -> & Hn).
  by split.
Qed.

Lemma predict_video_counts_past_warmup_witness :
  let cfg0 := video_cfg true false false in
  let p := self (sample_video_world true false) in
  let f := cap_frames (frames_then_end 5) in
  let frames := frames_before_failure f 0 7 in
  let rw := predict_video (C:=sample) 9 (mkCapture f 0) (mkWorld p 0 []) in
  fst rw = inr true
  /\ img_num (pipe_timer (self (snd rw)))
     = Z.max 0 (Z.of_nat (length frames) - 2).
Proof.
  intros cfg0 p f.
  apply (predict_video_counts_past_warmup sample cfg0 "output" p f 0 7 9
           0 []).
  - reflexivity.
  - reflexivity.
  - reflexivity.
  - lia.
Defined.

(** ** From the arguments to the detector *)

Section EndToEnd.
Context {C : Collaborators}.

Lemma predict_image_detection_wp (input : list string) (w : World)
    (det : Detector) :
  det_predictor (self w) = Some det ->
  0 < det_batch_size det ->
  with_attr (self w) = false ->
  visual (cfg (self w)) = false ->
  store_ok (pipeline_res (self w)) ->
  let batches := spec_batches input (Z.to_nat (det_batch_size det)) in
  wp (predict_image input)
    (fun _ w' =>
       trace w' = trace w ++ concat (map batch_events batches)
       /\ pipeline_res (self w')
          = det_results_merged batches (pipeline_res (self w))
       /\ img_num (pipe_timer (self w'))
          = img_num (pipe_timer (self w)) + py_len input) w.
Proof.
  intros Hdet Hbs Hattr Hvis Hok batches.
  unfold predict_image. apply wp_bind.
  eapply wp_attribute; [exact Hdet|].
  apply wp_bind. eexists _, w. split.
  { unfold lift, py_len. by rewrite ceil_div_div_up by exact Hbs. }
  eapply wp_mono.
  { apply (ticks_detection_only input det); assumption. }
  intros [] w' (Htr & Hres & Hn). cbv beta zeta in *.
  rewrite code_files_spec in Htr, Hres, Hn by exact Hbs.
  rewrite spec_batches_concat in Hn by lia. by repeat split.
Qed.

Lemma run_images_detection_wp fuel (files : list string) (w : World)
    (det : Detector) :
  is_video (self w) = false ->
  det_predictor (self w) = Some det ->
  0 < det_batch_size det ->
  with_attr (self w) = false ->
  visual (cfg (self w)) = false ->
  store_ok (pipeline_res (self w)) ->
  let batches := spec_batches files (Z.to_nat (det_batch_size det)) in
  wp (run fuel (InImages files))
    (fun finished w' =>
       finished = true
       /\ trace w'
          = trace w ++ concat (map batch_events batches) ++ [EvTimerInfo]
       /\ pipeline_res (self w')
          = det_results_merged batches (pipeline_res (self w))
       /\ img_num (pipe_timer (self w'))
          = img_num (pipe_timer (self w)) + py_len files) w.
Proof.
  intros Hvid Hdet Hbs Hattr Hvis Hok batches.
  unfold run. wp_step. wp_step. rewrite Hvid. wp_step. wp_step.
  eapply wp_mono.
  { apply (predict_image_detection_wp files w det); assumption. }
  intros [] w1 (Htr & Hres & Hn). cbv beta.
  repeat wp_step. split; [done|]. chase.
  rewrite ?Htr, ?Hres, ?Hn, <- ?app_assoc. by repeat split.
Qed.

End EndToEnd.

(** X16: from the arguments to the detector. A pipeline built with an
    image file or directory, a ['DET'] section with a positive batch size,
    no ['ATTR'] section and [visual] off, whatever the video and camera
    arguments are: the construction succeeds, and [run] returns after the
    decoding and the detector call of each batch of the listed images and
    the report of the timer, with nothing else called; its one predictor
    holds the merged detector results and has counted every image. *)
Theorem pipeline_detects_listed_images (C : Collaborators) (cfg0 : Cfg)
    (image_file image_dir : option string) (video_file : option VideoFile)
    (camera_id : CameraId) (output_dir0 : string) (files : list string)
    (det_cfg : ModelCfg) (fuel : nat) (clock0 : Z)
    (trace0 : list (event ndarray)) :
  image_given image_file image_dir = true ->
  get_test_images image_dir image_file = Some files ->
  DET cfg0 = Some det_cfg ->
  0 < batch_size det_cfg ->
  ATTR cfg0 = None ->
  visual cfg0 = false ->
  let batches := spec_batches files (Z.to_nat (batch_size det_cfg)) in
  exists pl,
    Pipeline_init cfg0 image_file image_dir video_file camera_id output_dir0
    = inr pl
    /\ let o := Pipeline_run fuel pl clock0 trace0 in
       out_result o = inr true
       /\ out_trace o
          = trace0 ++ concat (map batch_events batches) ++ [EvTimerInfo]
       /\ exists p,
            out_predictors o = [p]
            /\ get_result p = det_results_merged batches Result.init
            /\ img_num (pipe_timer p) = py_len files.
Proof.
  intros Himg Hfiles Hdet Hbs Hattr Hvis batches.
  unfold Pipeline_init, _parse_input, bind_exn.
  unfold image_given in Himg. rewrite Himg, Hfiles. simpl.
  unfold PipePredictor_init, bind_exn, cfg_section, cfg_flag.
  rewrite Hdet, Hattr. simpl.
  eexists. split; [reflexivity|]. unfold Pipeline_run. simpl.
  match goal with
  | |- context [run fuel (InImages files) ?w0] =>
      destruct (wp_result _ _ _
                  (run_images_detection_wp fuel files w0
                     (mkDetector (batch_size det_cfg)) eq_refl eq_refl Hbs
                     eq_refl Hvis store_ok_init))
        as (finished & Hres & -> & Htr & Hstore & Hn)
  end.
  split; [exact Hres|]. split; [exact Htr|].
  eexists. split; [reflexivity|]. unfold get_result. split; [exact Hstore|].
  rewrite Hn. simpl. lia.
Qed.

Lemma pipeline_detects_listed_images_witness :
  let cfg0 := image_cfg 2 false false in
  let batches := spec_batches ["a.jpg"] (Z.to_nat 2) in
  exists pl,
    Pipeline_init (C:=sample) cfg0 (Some "a.jpg") None
      (Some (VidPath "v.mp4")) (CamInt 0) "output"
    = inr pl
    /\ let o := Pipeline_run 3 pl 0 [] in
       out_result o = inr true
       /\ out_trace o
          = [] ++ concat (map (batch_events (C:=sample)) batches)
              ++ [EvTimerInfo]
       /\ exists p,
            out_predictors o = [p]
            /\ get_result p
               = det_results_merged (C:=sample) batches Result.init
            /\ img_num (pipe_timer p) = py_len ["a.jpg"].
Proof.
  intros cfg0.
  apply (pipeline_detects_listed_images sample cfg0 (Some "a.jpg") None
           (Some (VidPath "v.mp4")) (CamInt 0) "output" ["a.jpg"]
           (mkModelCfg "det_model" 2) 3 0 []).
  - reflexivity.
  - reflexivity.
  - reflexivity.
  - simpl. lia.
  - reflexivity.
  - reflexivity.
Defined.

(** ** The attribute loop *)

Section AttrLoop.
Context {C : Collaborators}.

Lemma attr_groups_run_acc groups itemss :
  Forall2 (fun g items => group_items g = inr items) groups itemss ->
  forall acc w,
    is_Some (attr_predictor (self w)) ->
    wp (for_fold groups acc
          (fun attr_res_list crop_input =>
             bind (attribute "attr_predictor" attr_predictor) (fun _ =>
             bind (emit (EvAttr crop_input)) (fun _ =>
             bind (subscript (attr_predict_image crop_input) "output")
               (fun out =>
             bind (lift (py_iter out)) (fun items =>
             ret (attr_res_list ++ items)))))))
      (fun res w' =>
         res = acc ++ concat itemss
         /\ self w' = self w
         /\ trace w' = trace w ++ map EvAttr groups) w.
Proof.
  induction 1 as [|g items groups itemss Hg _ IH]; intros acc w [u Hu]; simpl.
  - apply wp_ret. by rewrite !app_nil_r.
  - unfold group_items in Hg.
    destruct (attr_predict_image g !! "output") as [out|] eqn:Hout;
      [|discriminate].
    do 5 wp_step. apply wp_bind. exists out, w'.
    split; [unfold subscript, lift; by rewrite Hout|].
    apply wp_bind. exists items, w'. split; [unfold lift; by rewrite Hg|].
    wp_step. eapply wp_mono.
    { apply IH. chase. by exists u. }
    intros res w2 (-> & Hs & Htr). cbv beta. chase.
    rewrite <- !app_assoc. by repeat split.
Qed.

Lemma attr_groups_fail_acc groups itemss g rest e :
  Forall2 (fun g items => group_items g = inr items) groups itemss ->
  group_items g = inl e ->
  forall acc w,
    is_Some (attr_predictor (self w)) ->
    exists w',
      for_fold (groups ++ g :: rest) acc
        (fun attr_res_list crop_input =>
           bind (attribute "attr_predictor" attr_predictor) (fun _ =>
           bind (emit (EvAttr crop_input)) (fun _ =>
           bind (subscript (attr_predict_image crop_input) "output")
             (fun out =>
           bind (lift (py_iter out)) (fun items =>
           ret (attr_res_list ++ items)))))) w
      = (inl e, w')
      /\ self w' = self w
      /\ trace w' = trace w ++ map EvAttr (groups ++ [g]).
Proof.
  intros Hall Hg.
  induction Hall as [|g0 items groups itemss Hg0 _ IH]; intros acc w [u Hu];
    simpl.
  - unfold bind, attribute, emit, subscript, lift. rewrite Hu.
    unfold group_items in Hg.
    destruct (attr_predict_image g !! "output") as [out|] eqn:Hout.
    + rewrite Hg. eexists. split; [reflexivity|]. by split.
    + injection Hg as <-. eexists. split; [reflexivity|]. by split.
  - unfold group_items in Hg0.
    destruct (attr_predict_image g0 !! "output") as [out|] eqn:Hout;
      [|discriminate].
    destruct (IH (acc ++ items)
                (mkWorld (self w) (clock w + elapsed (EvAttr g0))
                   (trace w ++ [EvAttr g0])))
      as (w' & Hrun & Hs & Htr); [by exists u|].
    exists w'. split; [|split].
    + unfold bind, attribute, emit, subscript, lift, ret.
      rewrite Hu, Hout, Hg0. exact Hrun.
    + exact Hs.
    + rewrite Htr. simpl. by rewrite <- app_assoc.
Qed.

Lemma attr_calls_groups (groups : list (list ndarray)) :
  attr_calls (map EvAttr groups) = groups.
Proof. induction groups as [|g l IH]; [done|]. simpl. by rewrite IH. Qed.

Lemma stages_with_attr (input : list string) (i : Z) (w : World)
    (det : Detector) itemss :
  det_predictor (self w) = Some det ->
  with_attr (self w) = true ->
  is_Some (attr_predictor (self w)) ->
  store_ok (pipeline_res (self w)) ->
  let batch_file := batch_file_of input (det_batch_size det) i in
  let batch_input := map decode_image batch_file in
  let groups :=
    crop_image_with_det batch_input (det_predict_image batch_input) in
  Forall2 (fun g items => group_items g = inr items) groups itemss ->
  wp (predict_image_stages input i)
    (fun out w' =>
       out = (batch_file, batch_input)
       /\ (Result.get "attr" (pipeline_res (self w')) ≫= (.!! "output"))
          = Some (PyList (concat itemss))
       /\ trace w'
          = trace w ++ map EvDecode batch_file
              ++ [EvDet batch_input; EvCropDet batch_input]
              ++ map EvAttr groups
       /\ img_num (pipe_timer (self w'))
          = img_num (pipe_timer (self w)) + py_len batch_file) w.
Proof.
  intros Hdet Hattr Hap Hok bf bi groups Hall. subst groups bi bf.
  unfold predict_image_stages, past_warmup, attr_over_groups.
  fold (batch_file_of input (det_batch_size det) i).
  destruct (warmup_frame (self w) <? i) eqn:Ht; unfold_timer;
    repeat first
      [ wp_step
      | lazymatch goal with
        | |- wp (for_fold _ _ _) _ _ =>
            eapply wp_mono;
            [ apply (attr_groups_run_acc _ _ Hall); by chase
            | intros ? ? (-> & ? & ?); cbv beta ]
        end
      | progress (chase; rewrite ?Ht, ?Hattr; simpl) ].
  all: split; [reflexivity|].
  all: split;
    [ chase; rewrite get_store_put_eq; cbv [mbind option_bind];
      apply lookup_union_Some_l, lookup_singleton_eq |].
  all: chase; unfold py_len; rewrite ?length_map, <- ?app_assoc; simpl.
  all: by split.
Qed.

Lemma stages_attr_fails (input : list string) (i : Z) (w : World)
    (det : Detector) done itemss g rest e :
  det_predictor (self w) = Some det ->
  with_attr (self w) = true ->
  is_Some (attr_predictor (self w)) ->
  store_ok (pipeline_res (self w)) ->
  let batch_file := batch_file_of input (det_batch_size det) i in
  let batch_input := map decode_image batch_file in
  crop_image_with_det batch_input (det_predict_image batch_input)
  = done ++ g :: rest ->
  Forall2 (fun g items => group_items g = inr items) done itemss ->
  group_items g = inl e ->
  fails (predict_image_stages input i)
    (fun e' w' =>
       e' = e
       /\ attr_calls (trace w') = attr_calls (trace w) ++ done ++ [g]
       /\ Result.get "attr" (pipeline_res (self w'))
          = Result.get "attr" (pipeline_res (self w))
       /\ img_num (pipe_timer (self w')) = img_num (pipe_timer (self w))) w.
Proof.
  intros Hdet Hattr Hap Hok bf bi Hgroups Hall Hg. subst bi bf.
  unfold batch_file_of in Hgroups.
  unfold predict_image_stages, past_warmup, attr_over_groups.
  destruct (warmup_frame (self w) <? i) eqn:Ht; unfold_timer;
    repeat first
      [ wp_step
      | lazymatch goal with
        | |- fails (bind (for_fold _ _ _) _) _ ?w1 =>
            apply fails_bind_l; rewrite Hgroups;
            destruct (attr_groups_fail_acc done itemss g rest e Hall Hg []
                        w1)
              as (w2 & Hrun & Hs & Htr); [by chase|];
            exists e, w2; split; [exact Hrun|]
        | |- fails (bind (if _ then _ else _) _) _ _ =>
            chase; rewrite Hattr; apply fails_bind_l
        | |- fails (bind _ _) _ _ => apply fails_bind_r
        end
      | progress (chase; rewrite ?Ht, ?Hattr; simpl) ].
  all: split; [reflexivity|].
  all: chase.
  all: rewrite !attr_calls_app, attr_calls_decode, attr_calls_groups; simpl.
  all: rewrite ?app_nil_r; split; [reflexivity|].
  all: rewrite get_store_put_ne by done; by split.
Qed.

End AttrLoop.

(** X17: the attribute stage of an image round. With the attribute stage
    on and its predictor there, when every crop group of the batch gives an
    attribute result whose ['output'] can be iterated, the stages of the
    round return: the attribute predictor was called once per group, in
    order, after the decoding, the detector and the cropping; the store
    has, under ['attr'], an ['output'] that is the items of all groups in
    one list; and the counter has grown by the size of the batch. *)
Theorem attr_outputs_concatenated (C : Collaborators)
    (input : list string) (i : Z) (w : World) (det : Detector)
    (itemss : list (list (pyval ndarray))) :
  det_predictor (self w) = Some det ->
  with_attr (self w) = true ->
  is_Some (attr_predictor (self w)) ->
  store_ok (pipeline_res (self w)) ->
  let batch_file := batch_file_of input (det_batch_size det) i in
  let batch_input := map decode_image batch_file in
  let groups :=
    crop_image_with_det batch_input (det_predict_image batch_input) in
  Forall2 (fun g items => group_items g = inr items) groups itemss ->
  let rw := predict_image_stages input i w in
  fst rw = inr (batch_file, batch_input)
  /\ (Result.get "attr" (pipeline_res (self (snd rw))) ≫= (.!! "output"))
     = Some (PyList (concat itemss))
  /\ trace (snd rw)
     = trace w ++ map EvDecode batch_file
         ++ [EvDet batch_input; EvCropDet batch_input]
         ++ map EvAttr groups
  /\ img_num (pipe_timer (self (snd rw)))
     = img_num (pipe_timer (self w)) + py_len batch_file.
Proof.
  intros Hdet Hattr Hap Hok bf bi groups Hall rw.
  destruct (wp_result _ _ _
              (stages_with_attr input i w det itemss Hdet Hattr Hap Hok Hall))
    as (out & Hout & -> & H).
  split; [exact Hout|exact H].
Qed.

Lemma attr_outputs_concatenated_witness :
  let input := ["a"; "b"] in
  let w := sample_crops_world 2 in
  let batch_file := batch_file_of input 2 0 in
  let batch_input := map (decode_image (Collaborators:=sample_crops))
                       batch_file in
  let groups := [batch_input; batch_input] in
  let itemss := [[PyInt 1; PyInt 1]; [PyInt 1; PyInt 1]] in
  let rw := predict_image_stages (C:=sample_crops) input 0 w in
  fst rw = inr (batch_file, batch_input)
  /\ (Result.get "attr" (pipeline_res (self (snd rw))) ≫= (.!! "output"))
     = Some (PyList (concat itemss))
  /\ trace (snd rw)
     = trace w ++ map EvDecode batch_file
         ++ [EvDet batch_input; EvCropDet batch_input]
         ++ map EvAttr groups
  /\ img_num (pipe_timer (self (snd rw)))
     = img_num (pipe_timer (self w)) + py_len batch_file.
Proof.
  intros input w.
  apply (attr_outputs_concatenated sample_crops input 0 w (mkDetector 2)
           [[PyInt 1; PyInt 1]; [PyInt 1; PyInt 1]]).
  - reflexivity.
  - reflexivity.
  - by exists tt.
  - apply store_ok_init.
  - repeat constructor.
Defined.

(** X18: the first crop group that the attribute loop cannot use ends the
    round. With the attribute stage on, when the groups before [g] give
    results whose ['output'] can be iterated and [g] does not (no
    ['output']: [KeyError]; one that cannot be iterated: [TypeError]), the
    stages of the round raise that exception: the attribute predictor was
    called on the groups up to [g] and on none after it, the ['attr'] entry
    of the store is as before the round, and the batch is not counted. *)
Theorem attr_loop_stops_at_first_bad_group (C : Collaborators)
    (input : list string) (i : Z) (w : World) (det : Detector)
    (done : list (list ndarray)) (itemss : list (list (pyval ndarray)))
    (g : list ndarray) (rest : list (list ndarray)) (e : exn) :
  det_predictor (self w) = Some det ->
  with_attr (self w) = true ->
  is_Some (attr_predictor (self w)) ->
  store_ok (pipeline_res (self w)) ->
  let batch_file := batch_file_of input (det_batch_size det) i in
  let batch_input := map decode_image batch_file in
  crop_image_with_det batch_input (det_predict_image batch_input)
  = done ++ g :: rest ->
  Forall2 (fun g items => group_items g = inr items) done itemss ->
  group_items g = inl e ->
  let rw := predict_image_stages input i w in
  fst rw = inl e
  /\ attr_calls (trace (snd rw)) = attr_calls (trace w) ++ done ++ [g]
  /\ Result.get "attr" (pipeline_res (self (snd rw)))
     = Result.get "attr" (pipeline_res (self w))
  /\ img_num (pipe_timer (self (snd rw))) = img_num (pipe_timer (self w)).
Proof.
  intros Hdet Hattr Hap Hok bf bi Hgroups Hall Hg rw.
  destruct (fails_result _ _ _
              (stages_attr_fails input i w det done itemss g rest e Hdet
                 Hattr Hap Hok Hgroups Hall Hg))
    as (e' & He & -> & H).
  split; [exact He|exact H].
Qed.

Lemma attr_loop_stops_at_first_bad_group_witness :
  let input := ["a"] in
  let w := sample_crops_world 1 in
  let rw := predict_image_stages (C:=sample_crops) input 0 w in
  fst rw = inl (KeyError "output")
  /\ attr_calls (trace (snd rw)) = attr_calls (trace w) ++ [] ++ [[1]]
  /\ Result.get "attr" (pipeline_res (self (snd rw)))
     = Result.get "attr" (pipeline_res (self w))
  /\ img_num (pipe_timer (self (snd rw))) = img_num (pipe_timer (self w)).
Proof.
  intros input w.
  apply (attr_loop_stops_at_first_bad_group sample_crops input 0 w
           (mkDetector 1) [] [] [1] [[1]] (KeyError "output")).
  - reflexivity.
  - reflexivity.
  - by exists tt.
  - apply store_ok_init.
  - reflexivity.
  - constructor.
  - reflexivity.
Defined.

(** ** A source that never fails *)

Section Endless.
Context {C : Collaborators}.

Lemma frames_before_failure_all {A : Type} (f : nat -> option A) m :
  forall pos, (forall k, is_Some (f (pos + k)%nat)) ->
    length (frames_before_failure f pos m) = m.
Proof.
  induction m as [|m IH]; intros pos Hf; simpl; [done|].
  destruct (Hf 0%nat) as [frame Hframe]. rewrite Nat.add_0_r in Hframe.
  rewrite Hframe. simpl. f_equal. apply IH. intros k.
  replace (S pos + k)%nat with (pos + S k)%nat by lia. apply Hf.
Qed.

Lemma video_loop_goes_on fuel :
  forall f pos frame_id w,
    (forall k, is_Some (f (pos + k)%nat)) -> video_ready w ->
    wp (video_loop fuel (mkCapture f pos) frame_id)
      (fun left w' =>
         left = false
         /\ mot_calls (trace w')
            = mot_calls (trace w) ++ frames_before_failure f pos fuel
         /\ read_calls (trace w')
            = read_calls (trace w)
                ++ map (fun _ => true) (frames_before_failure f pos fuel))
      w.
Proof.
  induction fuel as [|fuel IH]; intros f pos frame_id w Hf Hw.
  - simpl. apply wp_ret. rewrite !app_nil_r. by repeat split.
  - destruct (Hf 0%nat) as [frame Hframe]. rewrite Nat.add_0_r in Hframe.
    simpl. rewrite Hframe. simpl. wp_step. wp_step. wp_step.
    eapply wp_mono.
    { apply video_frame_run. unfold video_ready in *. by chase. }
    intros [] w1 (Hw1 & evs & Htr & Hmot & Hread). cbv beta.
    eapply wp_mono.
    { apply (IH f (S pos) (frame_id + 1) w1); [|exact Hw1].
      intros k. replace (S pos + k)%nat with (pos + S k)%nat by lia.
      apply Hf. }
    intros left w2 (-> & Hmot2 & Hread2). split; [done|].
    rewrite Hmot2, Hread2, Htr. chase.
    rewrite !mot_calls_app, !read_calls_app, Hmot, Hread. simpl.
    rewrite !app_nil_r, <- !app_assoc. by split.
Qed.

End Endless.

(** X19: a source that never fails to give a frame, a camera for one,
    keeps the loop going. A video predictor out of its constructor (single
    camera, nothing rendered) on a source whose every read succeeds:
    whatever the number of rounds looked at, the loop has not been left
    after them; each round read one frame and gave it to the tracker. So
    [predict_video] does not return on such a source. *)
Theorem video_loop_never_left_while_reads_succeed (C : Collaborators)
    (cfg0 : Cfg) (output_dir0 : string) (p : PipePredictor)
    (f : nat -> option ndarray) (pos : nat) (clock0 : Z)
    (trace0 : list (event ndarray)) :
  PipePredictor_init cfg0 true false output_dir0 = inr p ->
  visual cfg0 = false ->
  (forall k, is_Some (f (pos + k)%nat)) ->
  forall fuel,
    let frames := frames_before_failure f pos fuel in
    let rw := predict_video fuel (mkCapture f pos) (mkWorld p clock0 trace0) in
    fst rw = inr false
    /\ length frames = fuel
    /\ mot_calls (trace (snd rw)) = mot_calls trace0 ++ frames
    /\ read_calls (trace (snd rw))
       = read_calls trace0 ++ map (fun _ => true) frames.
Proof.
  intros Hinit Hvis Hf fuel frames rw.
  assert (Hw : video_ready (mkWorld p clock0 trace0))
    by (eapply init_video_ready; eassumption).
  assert (Hwp : wp (predict_video fuel (mkCapture f pos))
            (fun left w' =>
               left = false
               /\ mot_calls (trace w') = mot_calls trace0 ++ frames
               /\ read_calls (trace w')
                  = read_calls trace0 ++ map (fun _ => true) frames)
            (mkWorld p clock0 trace0)).
  { unfold predict_video. do 7 wp_step.
    eapply wp_mono.
    { apply (video_loop_goes_on fuel f pos 0); [exact Hf|].
      unfold video_ready in *. by chase. }
    intros left w1 (-> & Hmot & Hread). cbv beta.
    wp_step. split; [done|]. rewrite Hmot, Hread. chase.
    rewrite !mot_calls_app, !read_calls_app. simpl.
    by rewrite !app_nil_r. }
  destruct (wp_result _ _ _ Hwp) as (left & Hres & -> & Hmot & Hread).
  split; [exact Hres|]. split; [|by split].
  by apply frames_before_failure_all.
Qed.

Lemma video_loop_never_left_while_reads_succeed_witness :
  let cfg0 := video_cfg true false false in
  let p := self (sample_video_world true false) in
  let f := fun k : nat => Some (Z.of_nat k) in
  let frames := frames_before_failure f 0 3 in
  let rw := predict_video (C:=sample) 3 (mkCapture f 0) (mkWorld p 0 []) in
  fst rw = inr false
  /\ length frames = 3%nat
  /\ mot_calls (trace (snd rw)) = mot_calls (@nil (event Z)) ++ frames
  /\ read_calls (trace (snd rw))
     = read_calls (@nil (event Z)) ++ map (fun _ => true) frames.
Proof.
  intros cfg0 p f.
  apply (video_loop_never_left_while_reads_succeed sample cfg0 "output" p f
           0 0 [] eq_refl eq_refl).
  intros k. by eexists.
Defined.
